(** * Secure video proxy worker: a shallow embedding and its properties

    The repository holds two variants of one Cloudflare Worker,
    [handleRequest]:

    - [src/cloudflare_worder.js], where the domain allowlist block is
      commented out (module [CloudflareWorker]);
    - a second copy, whose file name is not recorded, where the allowlist
      block is active and guarded by [allowedDomains.length > 0] (module
      [Allowlisted]).

    The worker is a single function over platform objects (strings,
    [Headers], [Request], [Response], [URL], [atob], [fetch]).  Module [JS]
    models the slice of the platform the worker calls.  What depends on the
    outside world (how a string parses as a URL, whether the [Request]
    constructor accepts it, what the origin answers) is a field of a
    [Runtime]; the general theorems quantify over all runtimes, and closed
    evaluations use the runtime of module [Sample].

    The handler is written in a small monad that records the calls to
    [atob] and [fetch] and carries thrown errors, so that [try]/[catch] and
    "no outbound request" can be stated.

    Strings are Rocq strings: one [ascii] per JavaScript code unit, which
    covers every string whose code units are below 256.  That is exactly the
    range of what [atob] returns. *)

From Stdlib Require Import String Ascii List ZArith Bool Arith Lia ZifyNat.
Import ListNotations.
Local Open Scope string_scope.

(* ================================================================== *)
(** * The JavaScript values the worker manipulates *)
(* ================================================================== *)

Module JS.

(** ** Exceptions *)

(** A thrown [Error]: its constructor name and its [message]. *)
Record JsError : Type := mkError {
  err_name : string;
  message : string
}.

Inductive JsResult (A : Type) : Type :=
| Ok (a : A)
| Throw (e : JsError).
Arguments Ok {A} a.
Arguments Throw {A} e.

(** ** Truthiness and [||] on nullable strings *)

(** [!v] for [v] a string or [null]: both [null] and the empty string are
    falsy. *)
Definition falsy (v : option string) : bool :=
  match v with
  | None => true
  | Some s => (s =? "")
  end.

(** [v || d] for [v] a string or [null]. *)
Definition or_else (v : option string) (d : string) : string :=
  match v with
  | None => d
  | Some s => if s =? "" then d else s
  end.

(** ** String methods *)

(** [s.startsWith(p)]. *)
Definition startsWith (s p : string) : bool := String.prefix p s.

(** [s.includes(sub)]: [sub] occurs in [s] at some position. *)
Fixpoint includes (s sub : string) : bool :=
  String.prefix sub s ||
  match s with
  | EmptyString => false
  | String _ s' => includes s' sub
  end.

Definition is_upper (c : ascii) : bool :=
  ((65 <=? nat_of_ascii c) && (nat_of_ascii c <=? 90))%nat.

(** ASCII lowercase of one code unit (byte-lowercase of the Fetch
    standard). *)
Definition lower_ascii (c : ascii) : ascii :=
  if is_upper c then ascii_of_nat (nat_of_ascii c + 32) else c.

Fixpoint lower (s : string) : string :=
  match s with
  | EmptyString => EmptyString
  | String c s' => String (lower_ascii c) (lower s')
  end.

(** Every code unit is below 128. *)
Fixpoint is_ascii (s : string) : bool :=
  match s with
  | EmptyString => true
  | String c s' => (nat_of_ascii c <? 128)%nat && is_ascii s'
  end.

(** ** [JSON.stringify] on an object whose values are strings *)

Definition dquote : ascii := ascii_of_nat 34.
Definition backslash : ascii := ascii_of_nat 92.

Definition hex_digit (n : nat) : ascii :=
  if (n <? 10)%nat then ascii_of_nat (48 + n) else ascii_of_nat (87 + n).

(** The escape of one code unit (QuoteJSONString). *)
Definition json_escape (c : ascii) : string :=
  let n := nat_of_ascii c in
  if (n =? 34)%nat then String backslash (String dquote "")
  else if (n =? 92)%nat then String backslash (String backslash "")
  else if (n =? 8)%nat then String backslash "b"
  else if (n =? 12)%nat then String backslash "f"
  else if (n =? 10)%nat then String backslash "n"
  else if (n =? 13)%nat then String backslash "r"
  else if (n =? 9)%nat then String backslash "t"
  else if (n <? 32)%nat then
    String backslash
      ("u00" ++ String (hex_digit (n / 16)) (String (hex_digit (n mod 16)) ""))
  else String c "".

Fixpoint json_escape_all (s : string) : string :=
  match s with
  | EmptyString => EmptyString
  | String c s' => json_escape c ++ json_escape_all s'
  end.

(** No code unit of [s] needs an escape. *)
Fixpoint json_plain (s : string) : bool :=
  match s with
  | EmptyString => true
  | String c s' =>
      let n := nat_of_ascii c in
      ((32 <=? n) && negb (n =? 34) && negb (n =? 92))%nat && json_plain s'
  end.

Definition json_quote (s : string) : string :=
  String dquote (json_escape_all s ++ String dquote "").

Fixpoint json_members (kvs : list (string * string)) : string :=
  match kvs with
  | [] => ""
  | [(k, v)] => json_quote k ++ ":" ++ json_quote v
  | (k, v) :: rest => json_quote k ++ ":" ++ json_quote v ++ "," ++ json_members rest
  end.

(** [JSON.stringify({k1: v1, ...})], properties in insertion order. *)
Definition JSON_stringify (kvs : list (string * string)) : string :=
  "{" ++ json_members kvs ++ "}".

(** Reading aid for expected bodies: the text with every apostrophe turned
    into a double quote. *)
Fixpoint jsontext (s : string) : string :=
  match s with
  | EmptyString => EmptyString
  | String c s' =>
      String (if (nat_of_ascii c =? 39)%nat then dquote else c) (jsontext s')
  end.

(** ** [Headers] *)

(** A header list: (name, value) pairs in insertion order, names kept as
    given and compared case-insensitively, values as stored (the platform
    has already normalised them). *)
Definition Headers : Type := list (string * string).

Definition name_matches (name : string) (h : string * string) : bool :=
  (lower (fst h) =? lower name).

Fixpoint join_values (vs : list string) : string :=
  match vs with
  | [] => ""
  | [v] => v
  | v :: rest => v ++ ", " ++ join_values rest
  end.

(** [h.get(name)]: [null] when no header has that name, else the values of
    all of them joined by comma-space. *)
Definition Headers_get (h : Headers) (name : string) : option string :=
  match filter (name_matches name) h with
  | [] => None
  | hs => Some (join_values (map snd hs))
  end.

(** [h.has(name)]. *)
Definition Headers_has (h : Headers) (name : string) : bool :=
  existsb (name_matches name) h.

Definition drop_name (name : string) (h : Headers) : Headers :=
  filter (fun kv => negb (name_matches name kv)) h.

(** [h.set(name, value)]: overwrite the first header of that name and drop
    the others, or append. *)
Fixpoint Headers_set (h : Headers) (name value : string) : Headers :=
  match h with
  | [] => [(name, value)]
  | kv :: rest =>
      if name_matches name kv
      then (fst kv, value) :: drop_name name rest
      else kv :: Headers_set rest name value
  end.

(** [new Headers({k1: v1, ...})]: the properties appended in order. *)
Definition Headers_new (init : list (string * string)) : Headers := init.

(** ** Base64: [atob] and the standard encoder *)

Definition alphabet : list ascii :=
  list_ascii_of_string
    "ABCDEFGHIJKLMNOPQRSTUVWXYZabcdefghijklmnopqrstuvwxyz0123456789+/".

Definition pad : ascii := "="%char.

Definition char_of_sextet (n : nat) : ascii := nth n alphabet "A"%char.

Fixpoint index_of (c : ascii) (l : list ascii) (i : nat) : option nat :=
  match l with
  | [] => None
  | x :: r => if Ascii.eqb x c then Some i else index_of c r (S i)
  end.

Definition sextet_of_char (c : ascii) : option nat := index_of c alphabet 0.

(** ASCII whitespace: TAB, LF, FF, CR, SPACE. *)
Definition is_ascii_whitespace (c : ascii) : bool :=
  let n := nat_of_ascii c in
  ((n =? 9) || (n =? 10) || (n =? 12) || (n =? 13) || (n =? 32))%nat.

(** One line of the alphabet table: the character of [n] decodes to [n],
    is not whitespace and is not the padding character. *)
Definition table_ok (n : nat) : bool :=
  match sextet_of_char (char_of_sextet n) with
  | Some m => (m =? n)%nat
  | None => false
  end
  && negb (is_ascii_whitespace (char_of_sextet n))
  && negb (Ascii.eqb (char_of_sextet n) pad).

(** Remove one or two trailing [=]. *)
Definition strip_padding (d : list ascii) : list ascii :=
  match rev d with
  | p1 :: p2 :: r =>
      if Ascii.eqb p1 pad
      then if Ascii.eqb p2 pad then rev r else rev (p2 :: r)
      else d
  | [p1] => if Ascii.eqb p1 pad then [] else d
  | [] => d
  end.

Fixpoint sextets_of (d : list ascii) : option (list nat) :=
  match d with
  | [] => Some []
  | c :: r =>
      match sextet_of_char c, sextets_of r with
      | Some n, Some ns => Some (n :: ns)
      | _, _ => None
      end
  end.

(** Regroup 6-bit values into bytes; a final group of two (three) sextets
    gives one (two) bytes, the spare low bits being discarded. *)
Fixpoint bytes_of_sextets (ss : list nat) : list ascii :=
  match ss with
  | s1 :: s2 :: s3 :: s4 :: r =>
      ascii_of_nat (s1 * 4 + s2 / 16)
      :: ascii_of_nat ((s2 mod 16) * 16 + s3 / 4)
      :: ascii_of_nat ((s3 mod 4) * 64 + s4)
      :: bytes_of_sextets r
  | [s1; s2; s3] =>
      [ascii_of_nat (s1 * 4 + s2 / 16);
       ascii_of_nat ((s2 mod 16) * 16 + s3 / 4)]
  | [s1; s2] => [ascii_of_nat (s1 * 4 + s2 / 16)]
  | _ => []
  end.

(** [atob(data)] (forgiving-base64 decode): [None] stands for the
    [InvalidCharacterError] it throws.  The result has one code unit per
    decoded byte. *)
Definition atob (data : string) : option string :=
  let d := filter (fun c => negb (is_ascii_whitespace c))
                  (list_ascii_of_string data) in
  let d := if (length d mod 4 =? 0)%nat then strip_padding d else d in
  if (length d mod 4 =? 1)%nat then None
  else match sextets_of d with
       | None => None
       | Some ss => Some (string_of_list_ascii (bytes_of_sextets ss))
       end.

(** Sextets of a byte sequence, without padding. *)
Fixpoint sextets_of_bytes (bs : list ascii) : list nat :=
  match bs with
  | a :: b :: c :: r =>
      let a := nat_of_ascii a in
      let b := nat_of_ascii b in
      let c := nat_of_ascii c in
      a / 4 :: (a mod 4) * 16 + b / 16 :: (b mod 16) * 4 + c / 64 :: c mod 64
      :: sextets_of_bytes r
  | [a; b] =>
      let a := nat_of_ascii a in
      let b := nat_of_ascii b in
      [a / 4; (a mod 4) * 16 + b / 16; (b mod 16) * 4]
  | [a] =>
      let a := nat_of_ascii a in
      [a / 4; (a mod 4) * 16]
  | [] => []
  end.

(** Number of [=] that completes the last group. *)
Definition padding_of (bs : list ascii) : list ascii :=
  match length bs mod 3 with
  | 1 => [pad; pad]
  | 2 => [pad]
  | _ => []
  end.

(** Standard Base64 (RFC 4648, with padding) of a byte sequence; part of
    the token encoder below. *)
Definition base64_encode (bs : string) : string :=
  let l := list_ascii_of_string bs in
  string_of_list_ascii
    (map char_of_sextet (sextets_of_bytes l) ++ padding_of l)%list.

(** UTF-8 of a string whose code units are below 256: one byte below 128,
    two bytes from 128 on; part of the token encoder below. *)
Fixpoint utf8_encode (s : string) : string :=
  match s with
  | EmptyString => EmptyString
  | String c s' =>
      let n := nat_of_ascii c in
      if (n <? 128)%nat then String c (utf8_encode s')
      else String (ascii_of_nat (192 + n / 64))
             (String (ascii_of_nat (128 + n mod 64)) (utf8_encode s'))
  end.

(** Modelled from the spec: the token encoder is not part of the worker (the
    client application produces tokens); the specification fixes it as the
    standard Base64 text encoding of the UTF-8 origin URL. *)
Definition encode_token (url : string) : string :=
  base64_encode (utf8_encode url).

End JS.

Import JS.

(* ================================================================== *)
(** * Platform objects *)
(* ================================================================== *)

(** A parsed URL, reduced to the two members the worker reads. *)
Module URL.
Record t : Type := mk {
  hostname : string;
  searchParams : list (string * string)
}.
End URL.

(** [url.searchParams.get(name)]: the value of the first pair of that name,
    [null] when there is none. *)
Fixpoint searchParams_get (ps : list (string * string)) (name : string)
  : option string :=
  match ps with
  | [] => None
  | (k, v) :: rest => if k =? name then Some v else searchParams_get rest name
  end.

(** A [Request], incoming or outgoing. *)
Module Request.
Record t : Type := mk {
  url : string;
  method : string;
  headers : Headers;
  body : option string
}.
End Request.

(** A [Response], from the origin or to the client; [body] is [None] for a
    null body. *)
Module Response.
Record t : Type := mk {
  status : Z;
  headers : Headers;
  body : option string
}.
End Response.

(** What the platform decides and the worker cannot: how a string parses as
    a URL, whether the [Request] constructor accepts a URL and a method,
    the serialised URL it stores for an input it accepts, and what the
    outbound [fetch] resolves or rejects with. *)
Record Runtime : Type := mkRuntime {
  URL_new : string -> JsResult URL.t;
  Request_check : string -> string -> option JsError;
  Request_href : string -> string;
  fetch : Request.t -> JsResult Response.t
}.

(** [new Request(url, { method, headers })]: no body is supplied.  The
    constructor parses [url] and the request's [url] is the serialisation
    of the result, not the string it was given. *)
Definition Request_new (rt : Runtime) (url method : string)
    (headers : list (string * string)) : JsResult Request.t :=
  match Request_check rt url method with
  | Some e => Throw e
  | None =>
      Ok (Request.mk (Request_href rt url) method (Headers_new headers) None)
  end.

Definition status_RangeError : JsError :=
  mkError "RangeError"
    "Responses may only be constructed with status codes in the range 200 to 599, inclusive.".

(** [new Response(body, { status, headers })]: [status] defaults to 200 and
    must lie in 200..599, else a [RangeError] is thrown.  (The constructor's
    other check, a body on a null-body status, cannot fire on the values
    used here: [fetch] gives such responses a null body.) *)
Definition Response_new (body : option string) (status : option Z)
    (headers : Headers) : JsResult Response.t :=
  let st := match status with Some st => st | None => 200%Z end in
  if ((st <? 200) || (599 <? st))%Z then Throw status_RangeError
  else Ok (Response.mk st headers body).

(** [String(v)] for a string or [null]. *)
Definition string_of (v : option string) : string :=
  match v with
  | Some s => s
  | None => "null"
  end.

(* ================================================================== *)
(** * Effects: platform calls and exceptions *)
(* ================================================================== *)

(** The platform calls that are observed: decoding a token and issuing the
    outbound request. *)
Inductive Call : Type :=
| CallAtob (data : string)
| CallFetch (r : Request.t).

(** A computation lists the calls it made and ends with a value or a thrown
    error. *)
Definition M (A : Type) : Type := (list Call * JsResult A)%type.

Definition ret {A} (a : A) : M A := ([], Ok a).

Definition lift {A} (r : JsResult A) : M A := ([], r).

Definition bind {A B} (m : M A) (k : A -> M B) : M B :=
  match m with
  | (t, Ok a) => let (t', r) := k a in ((t ++ t')%list, r)
  | (t, Throw e) => (t, Throw e)
  end.

(** [try { m } catch (e) { h e }]. *)
Definition try_catch {A} (m : M A) (h : JsError -> M A) : M A :=
  match m with
  | (t, Ok a) => (t, Ok a)
  | (t, Throw e) => let (t', r) := h e in ((t ++ t')%list, r)
  end.

Notation "x <- m ;; k" := (bind m (fun x => k))
  (at level 61, m at next level, right associativity).

Definition trace {A} (m : M A) : list Call := fst m.
Definition result {A} (m : M A) : JsResult A := snd m.

Definition InvalidCharacterError : JsError :=
  mkError "InvalidCharacterError" "atob() called with invalid base64-encoded data.".

Definition call_atob (data : string) : M string :=
  ([CallAtob data],
   match atob data with
   | Some s => Ok s
   | None => Throw InvalidCharacterError
   end).

Definition call_fetch (rt : Runtime) (r : Request.t) : M Response.t :=
  ([CallFetch r], fetch rt r).

(* ================================================================== *)
(** * The worker *)
(* ================================================================== *)

(** The parts the two variants share word for word. *)
Module Proxy.

Definition cors_headers : list (string * string) :=
  [ ("Access-Control-Allow-Origin", "*");
    ("Access-Control-Allow-Methods", "GET, HEAD, OPTIONS");
    ("Access-Control-Allow-Headers", "Range, Content-Type") ].

(** [new Response(null, { headers: { ...CORS } })]. *)
Definition preflight : M Response.t :=
  lift (Response_new None None (Headers_new cors_headers)).

(** [new Response(JSON.stringify(fields),
       { status, headers: { 'Content-Type': 'application/json' } })]. *)
Definition error_response (status : Z) (fields : list (string * string))
  : M Response.t :=
  lift (Response_new (Some (JSON_stringify fields)) (Some status)
          (Headers_new [("Content-Type", "application/json")])).

Definition user_agent : string :=
  "Mozilla/5.0 (Windows NT 10.0; Win64; x64) AppleWebKit/537.36".

(** The [headers] initialiser of [videoRequest]. *)
Definition videoRequest_headers (request : Request.t) : list (string * string) :=
  [ ("User-Agent", user_agent);
    ("Accept", or_else (Headers_get (Request.headers request) "Accept") "*/*");
    ("Accept-Language", "en-US,en;q=0.9");
    ("Range", or_else (Headers_get (Request.headers request) "Range") "") ].

(** [responseHeaders] after the two conditional [set]s. *)
Definition responseHeaders_of (videoResponse : Response.t) : Headers :=
  let vh := Response.headers videoResponse in
  let responseHeaders :=
    Headers_new
      [ ("Content-Type", or_else (Headers_get vh "Content-Type") "video/mp4");
        ("Accept-Ranges", or_else (Headers_get vh "Accept-Ranges") "bytes");
        ("Access-Control-Allow-Origin", "*");
        ("Access-Control-Allow-Methods", "GET, HEAD, OPTIONS");
        ("Access-Control-Allow-Headers", "Range, Content-Type");
        ("Cache-Control", "public, max-age=3600") ] in
  let responseHeaders :=
    if Headers_has vh "Content-Length"
    then Headers_set responseHeaders "Content-Length"
           (string_of (Headers_get vh "Content-Length"))
    else responseHeaders in
  let responseHeaders :=
    if Headers_has vh "Content-Range"
    then Headers_set responseHeaders "Content-Range"
           (string_of (Headers_get vh "Content-Range"))
    else responseHeaders in
  responseHeaders.

(** From "Build request to original streaming server" to "Return video
    content". *)
Definition relay (rt : Runtime) (request : Request.t) (originalUrl : string)
  : M Response.t :=
  videoRequest <- lift (Request_new rt originalUrl (Request.method request)
                          (videoRequest_headers request)) ;;
  videoResponse <- call_fetch rt videoRequest ;;
  lift (Response_new (Response.body videoResponse)
          (Some (Response.status videoResponse))
          (responseHeaders_of videoResponse)).

(** The outer [catch (error)]. *)
Definition server_error (error : JsError) : M Response.t :=
  error_response 500 [("error", "Server error"); ("message", message error)].

(** [try { originalUrl = atob(encryptedId) } catch (e) { ... }]: [None] when
    the catch block is entered. *)
Definition decode (encryptedId : option string) : M (option string) :=
  try_catch (originalUrl <- call_atob (string_of encryptedId) ;;
             ret (Some originalUrl))
            (fun _ => ret None).

Definition bad_scheme (originalUrl : string) : bool :=
  negb (startsWith originalUrl "http://")
  && negb (startsWith originalUrl "https://").

End Proxy.

(** [src/cloudflare_worder.js]: the allowlist block is commented out. *)
Module CloudflareWorker.
Import Proxy.

Definition handleRequest (rt : Runtime) (request : Request.t) : M Response.t :=
  if Request.method request =? "OPTIONS" then preflight
  else
    try_catch
      (url <- lift (URL_new rt (Request.url request)) ;;
       let encryptedId := searchParams_get (URL.searchParams url) "vid" in
       if falsy encryptedId then
         error_response 400 [("error", "Missing video ID")]
       else
         decoded <- decode encryptedId ;;
         match decoded with
         | None => error_response 400 [("error", "Invalid video ID")]
         | Some originalUrl =>
             if bad_scheme originalUrl then
               error_response 400 [("error", "Invalid URL")]
             else
               relay rt request originalUrl
         end)
      server_error.

End CloudflareWorker.

(** The second copy of the worker (file name not recorded): the allowlist
    block is active. *)
Module Allowlisted.
Import Proxy.

(** The list as the file ships it. *)
Definition allowedDomains : list string :=
  [ "commondatastorage.googleapis.com";
    "storage.googleapis.com" ].

(** [handleRequest], with the inline list as a parameter. *)
Definition handleRequest (rt : Runtime) (allowedDomains : list string)
    (request : Request.t) : M Response.t :=
  if Request.method request =? "OPTIONS" then preflight
  else
    try_catch
      (url <- lift (URL_new rt (Request.url request)) ;;
       let encryptedId := searchParams_get (URL.searchParams url) "vid" in
       if falsy encryptedId then
         error_response 400 [("error", "Missing video ID")]
       else
         decoded <- decode encryptedId ;;
         match decoded with
         | None => error_response 400 [("error", "Invalid video ID")]
         | Some originalUrl =>
             if bad_scheme originalUrl then
               error_response 400 [("error", "Invalid URL")]
             else
               urlObj <- lift (URL_new rt originalUrl) ;;
               let isAllowed :=
                 existsb (fun domain => includes (URL.hostname urlObj) domain)
                         allowedDomains in
               if negb isAllowed && (0 <? length allowedDomains)%nat then
                 error_response 403 [("error", "Unauthorized domain")]
               else
                 relay rt request originalUrl
         end)
      server_error.

End Allowlisted.

(* ================================================================== *)
(** * Event registration *)
(* ================================================================== *)

(** The [fetch] event the platform dispatches: the listener reads its
    [request] and hands [respondWith] the promise of [handleRequest]. *)
Module FetchEvent.
Record t : Type := mk {
  request : Request.t
}.
End FetchEvent.

(** [addEventListener('fetch', event =>
       event.respondWith(handleRequest(event.request)))]
    in [src/cloudflare_worder.js]: the computation handed to
    [respondWith]. *)
Definition worker_listener (rt : Runtime) (event : FetchEvent.t)
  : M Response.t :=
  CloudflareWorker.handleRequest rt (FetchEvent.request event).

(** The same registration in the second copy, where [handleRequest] reads
    its inline list. *)
Definition allowlisted_listener (rt : Runtime) (event : FetchEvent.t)
  : M Response.t :=
  Allowlisted.handleRequest rt Allowlisted.allowedDomains
    (FetchEvent.request event).

(** The header names [handleRequest] can put on a relayed answer: the six
    of the [new Headers] initialiser and the two conditional [set]s. *)
Definition relayed_names : list string :=
  [ "Content-Type"; "Accept-Ranges"; "Access-Control-Allow-Origin";
    "Access-Control-Allow-Methods"; "Access-Control-Allow-Headers";
    "Cache-Control"; "Content-Length"; "Content-Range" ].

(** Every code unit of [s] is ASCII whitespace. *)
Fixpoint all_whitespace (s : string) : bool :=
  match s with
  | EmptyString => true
  | String c s' => is_ascii_whitespace c && all_whitespace s'
  end.

(* ================================================================== *)
(** * A reference runtime for closed evaluations *)
(* ================================================================== *)

(** The theorems below hold for every [Runtime].  To run the worker on
    concrete requests one runtime is fixed here: a parser and serialiser
    for http and https URLs after the URL standard, the error messages of
    the Workers runtime, and an origin given as a function.  The parser
    answers [Unsupported] (and the runtime throws) on what it does not
    cover: other schemes, internationalised names, Punycode labels, IP
    addresses, a request to a URL with credentials, and query text that
    decodes to code points from U+0100 on or is not UTF-8, which the
    string model does not hold. *)
Module Sample.

Definition chr (n : nat) : ascii := ascii_of_nat n.

Definition is_char (n : nat) (c : ascii) : bool := (nat_of_ascii c =? n)%nat.

(** How the reference parser ends: with a value, with the failure the URL
    standard prescribes, or on an input outside what it covers. *)
Inductive Outcome (A : Type) : Type :=
| Parsed (a : A)
| Fails
| Unsupported.
Arguments Parsed {A} a.
Arguments Fails {A}.
Arguments Unsupported {A}.

(** Split before the first element satisfying [stop]. *)
Fixpoint break_at (stop : ascii -> bool) (l : list ascii)
  : list ascii * list ascii :=
  match l with
  | [] => ([], [])
  | c :: r =>
      if stop c then ([], l)
      else let (a, b) := break_at stop r in (c :: a, b)
  end.

(** Split around the last element satisfying [sep], if any. *)
Fixpoint split_last (sep : ascii -> bool) (l : list ascii)
  : option (list ascii * list ascii) :=
  match l with
  | [] => None
  | c :: r =>
      match split_last sep r with
      | Some (a, b) => Some (c :: a, b)
      | None => if sep c then Some ([], r) else None
      end
  end.

(** Split at every element satisfying [sep]. *)
Fixpoint split_all (sep : ascii -> bool) (l : list ascii) : list (list ascii) :=
  match l with
  | [] => [[]]
  | c :: r =>
      if sep c then [] :: split_all sep r
      else match split_all sep r with
           | x :: xs => (c :: x) :: xs
           | [] => [[c]]
           end
  end.

Fixpoint drop_while (p : ascii -> bool) (l : list ascii) : list ascii :=
  match l with
  | [] => []
  | c :: r => if p c then drop_while p r else l
  end.

Definition is_c0_or_space (c : ascii) : bool := (nat_of_ascii c <=? 32)%nat.

Definition is_tab_or_newline (c : ascii) : bool :=
  is_char 9 c || is_char 10 c || is_char 13 c.

(** The parser's input preparation: leading and trailing C0 controls and
    spaces are dropped, then every tab and newline is removed. *)
Definition prepare (s : string) : list ascii :=
  let l := list_ascii_of_string s in
  let l := rev (drop_while is_c0_or_space (rev (drop_while is_c0_or_space l))) in
  filter (fun c => negb (is_tab_or_newline c)) l.

Definition is_digit (c : ascii) : bool :=
  ((48 <=? nat_of_ascii c) && (nat_of_ascii c <=? 57))%nat.

Definition is_alpha (c : ascii) : bool :=
  let n := nat_of_ascii c in
  (((65 <=? n) && (n <=? 90)) || ((97 <=? n) && (n <=? 122)))%nat.

Definition is_scheme_char (c : ascii) : bool :=
  is_alpha c || is_digit c || is_char 43 c || is_char 45 c || is_char 46 c.

Definition is_slash (c : ascii) : bool := is_char 47 c || is_char 92 c.

(** '/', '?', '#' and '\' end the authority. *)
Definition ends_authority (c : ascii) : bool :=
  is_char 47 c || is_char 63 c || is_char 35 c || is_char 92 c.

(** Forbidden domain code points; code units from 128 on are handled
    apart. *)
Definition forbidden_host (c : ascii) : bool :=
  let n := nat_of_ascii c in
  ((n <=? 32) || (n =? 35) || (n =? 37) || (n =? 47) || (n =? 58)
   || (n =? 60) || (n =? 62) || (n =? 63) || (n =? 64) || (n =? 91)
   || (n =? 92) || (n =? 93) || (n =? 94) || (n =? 124) || (n =? 127))%nat.

Definition hex_value (c : ascii) : option nat :=
  let n := nat_of_ascii c in
  if ((48 <=? n) && (n <=? 57))%nat then Some (n - 48)%nat
  else if ((65 <=? n) && (n <=? 70))%nat then Some (n - 55)%nat
  else if ((97 <=? n) && (n <=? 102))%nat then Some (n - 87)%nat
  else None.

(** Percent-decoding to bytes; with [plus], '+' is a space (form
    decoding).  A code unit from 128 on stands for its two UTF-8 bytes. *)
Fixpoint percent_decode (plus : bool) (l : list ascii) : list nat :=
  match l with
  | [] => []
  | c :: r =>
      let n := nat_of_ascii c in
      if plus && is_char 43 c then 32 :: percent_decode plus r
      else if is_char 37 c then
        match r with
        | h :: l' :: r' =>
            match hex_value h, hex_value l' with
            | Some a, Some b => (a * 16 + b) :: percent_decode plus r'
            | _, _ => n :: percent_decode plus r
            end
        | _ => n :: percent_decode plus r
        end
      else if (n <? 128)%nat then n :: percent_decode plus r
      else (192 + n / 64) :: (128 + n mod 64) :: percent_decode plus r
  end.

(** UTF-8 decoding into code units below 256; [None] on a code point from
    U+0100 on and on an ill-formed sequence, which the string model does
    not hold. *)
Fixpoint utf8_decode (bs : list nat) : option (list ascii) :=
  match bs with
  | [] => Some []
  | b :: r =>
      if (b <? 128)%nat then option_map (cons (chr b)) (utf8_decode r)
      else if ((b =? 194) || (b =? 195))%nat then
        match r with
        | b2 :: r' =>
            if ((128 <=? b2) && (b2 <? 192))%nat
            then option_map (cons (chr ((b - 192) * 64 + (b2 - 128))))
                            (utf8_decode r')
            else None
        | [] => None
        end
      else None
  end.

Definition form_decode (l : list ascii) : option string :=
  option_map string_of_list_ascii (utf8_decode (percent_decode true l)).

Definition parse_pair (piece : list ascii) : option (string * string) :=
  let (k, rest) := break_at (is_char 61) piece in
  match form_decode k, form_decode (tl rest) with
  | Some name, Some value => Some (name, value)
  | _, _ => None
  end.

Fixpoint parse_pairs (pieces : list (list ascii))
  : option (list (string * string)) :=
  match pieces with
  | [] => Some []
  | piece :: r =>
      match piece with
      | [] => parse_pairs r
      | _ :: _ =>
          match parse_pair piece, parse_pairs r with
          | Some p, Some ps => Some (p :: ps)
          | _, _ => None
          end
      end
  end.

(** [searchParams] of a query. *)
Definition parse_query (q : list ascii) : option (list (string * string)) :=
  parse_pairs (split_all (is_char 38) q).

(** Decimal port, at most 65535. *)
Fixpoint port_digits (l : list ascii) (acc : nat) : option nat :=
  match l with
  | [] => Some acc
  | c :: r =>
      if is_digit c then
        let v := (acc * 10 + (nat_of_ascii c - 48))%nat in
        if (256 * 256 <=? v)%nat then None else port_digits r v
      else None
  end.

Definition starts_with (p l : list ascii) : bool :=
  String.prefix (string_of_list_ascii p) (string_of_list_ascii l).

(** A label that would be read as a number (decimal, or hexadecimal after
    0x), which makes the host an IPv4 address. *)
Definition numeric_label (l : list ascii) : bool :=
  match l with
  | [] => false
  | c :: r =>
      forallb is_digit l
      || (is_char 48 c
          && match r with
             | x :: h =>
                 (is_char 120 x || is_char 88 x)
                 && forallb (fun d => match hex_value d with
                                      | Some _ => true
                                      | None => false
                                      end) h
             | [] => false
             end)
  end.

Definition ends_in_number (host : list ascii) : bool :=
  match rev (split_all (is_char 46) host) with
  | [] :: l :: _ => numeric_label l
  | l :: _ => numeric_label l
  | [] => false
  end.

Definition punycode_label (l : list ascii) : bool :=
  starts_with (list_ascii_of_string "xn--") l.

(** The host of an http(s) URL.  Internationalised names, Punycode labels
    and IP addresses are not covered. *)
Definition parse_host (raw : list ascii) : Outcome string :=
  let bytes := percent_decode false raw in
  if existsb (fun b => (128 <=? b)%nat) bytes then Unsupported
  else
    let host := map lower_ascii (map chr bytes) in
    if existsb forbidden_host host then Fails
    else if existsb punycode_label (split_all (is_char 46) host)
            || ends_in_number host
    then Unsupported
    else Parsed (string_of_list_ascii host).

(** The pieces of a parsed http(s) URL, before serialisation. *)
Record Parts : Type := mkParts {
  scheme : string;
  userinfo : list ascii;
  host : string;
  port : option nat;
  path : list ascii;
  query : option (list ascii);
  fragment : option (list ascii)
}.

Definition default_port (scheme : string) : nat :=
  if scheme =? "https" then 443 else 80.

Definition parse_parts (s : string) : Outcome Parts :=
  let (sch, rest) := break_at (is_char 58) (prepare s) in
  match sch, rest with
  | c :: _, _ :: after =>
      if is_alpha c && forallb is_scheme_char sch then
        let name := lower (string_of_list_ascii sch) in
        if (name =? "http") || (name =? "https") then
          let (authority, tail) :=
            break_at ends_authority (drop_while is_slash after) in
          let (info, hostport) :=
            match split_last (is_char 64) authority with
            | Some (i, hp) => (i, hp)
            | None => ([], authority)
            end in
          if starts_with ["["%char] hostport then Unsupported
          else
            let (rawhost, colon) := break_at (is_char 58) hostport in
            match rawhost with
            | [] => Fails
            | _ :: _ =>
                match parse_host rawhost, port_digits (tl colon) 0 with
                | Parsed h, Some p =>
                    let (pathtext, rest2) :=
                      break_at (fun x => is_char 63 x || is_char 35 x) tail in
                    let (q, rest3) :=
                      match rest2 with
                      | x :: r =>
                          if is_char 63 x
                          then let (q, r3) := break_at (is_char 35) r in
                               (Some q, r3)
                          else (None, rest2)
                      | [] => (None, [])
                      end in
                    Parsed
                      (mkParts name info h
                         (match tl colon with
                          | [] => None
                          | _ :: _ =>
                              if (p =? default_port name)%nat
                              then None else Some p
                          end)
                         pathtext q
                         (match rest3 with
                          | _ :: f => Some f
                          | [] => None
                          end))
                | Fails, _ => Fails
                | Unsupported, _ => Unsupported
                | Parsed _, None => Fails
                end
            end
        else Unsupported
      else Fails
  | _, _ => Fails
  end.

Definition invalid_URL : JsError := mkError "TypeError" "Invalid URL string.".

Definition unsupported_URL : JsError :=
  mkError "Unsupported" "URL outside the reference parser".

(** [new URL(s)]: [hostname] and [searchParams]. *)
Definition parse_URL (s : string) : JsResult URL.t :=
  match parse_parts s with
  | Parsed p =>
      match parse_query (match query p with Some q => q | None => [] end) with
      | Some params => Ok (URL.mk (host p) params)
      | None => Throw unsupported_URL
      end
  | Fails => Throw invalid_URL
  | Unsupported => Throw unsupported_URL
  end.

(** ** Serialisation *)

Definition hex_upper (n : nat) : ascii :=
  if (n <? 10)%nat then chr (48 + n) else chr (55 + n).

Definition percent (b : nat) : list ascii :=
  ["%"%char; hex_upper (b / 16); hex_upper (b mod 16)].

Definition c0_set (n : nat) : bool := ((n <? 32) || (n =? 127))%nat.

Definition query_set (n : nat) : bool :=
  (c0_set n || (n =? 32) || (n =? 34) || (n =? 35) || (n =? 60)
   || (n =? 62))%nat.

Definition special_query_set (n : nat) : bool :=
  (query_set n || (n =? 39))%nat.

Definition path_set (n : nat) : bool :=
  (query_set n || (n =? 63) || (n =? 94) || (n =? 96) || (n =? 123)
   || (n =? 125))%nat.

Definition fragment_set (n : nat) : bool :=
  (c0_set n || (n =? 32) || (n =? 34) || (n =? 60) || (n =? 62)
   || (n =? 96))%nat.

Definition userinfo_set (n : nat) : bool :=
  (path_set n || (n =? 47) || (n =? 58) || (n =? 59) || (n =? 61)
   || (n =? 64) || (n =? 91) || (n =? 92) || (n =? 93) || (n =? 124))%nat.

(** Percent-encoding of one code unit: the UTF-8 bytes of a code unit from
    128 on, the code unit itself when it is in [set]. *)
Definition encode_unit (set : nat -> bool) (c : ascii) : list ascii :=
  let n := nat_of_ascii c in
  if (128 <=? n)%nat then (percent (192 + n / 64) ++ percent (128 + n mod 64))%list
  else if set n then percent n
  else [c].

Definition encode (set : nat -> bool) (l : list ascii) : list ascii :=
  flat_map (encode_unit set) l.

Definition single_dot (seg : list ascii) : bool :=
  let s := lower (string_of_list_ascii seg) in
  (s =? ".") || (s =? "%2e").

Definition double_dot (seg : list ascii) : bool :=
  let s := lower (string_of_list_ascii seg) in
  (s =? "..") || (s =? ".%2e") || (s =? "%2e.") || (s =? "%2e%2e").

(** The path state: dot segments are resolved, the others encoded; [acc]
    is the path so far, last segment first. *)
Fixpoint walk (segs acc : list (list ascii)) : list (list ascii) :=
  match segs with
  | [] => acc
  | seg :: rest =>
      let last := match rest with [] => true | _ :: _ => false end in
      if double_dot seg then
        walk rest (if last then [] :: tl acc else tl acc)
      else if single_dot seg then
        walk rest (if last then [] :: acc else acc)
      else walk rest (encode path_set seg :: acc)
  end.

Definition serialize_path (pathtext : list ascii) : list ascii :=
  let body :=
    match pathtext with
    | c :: r => if is_slash c then r else pathtext
    | [] => []
    end in
  flat_map (fun seg => "/"%char :: seg)
           (rev (walk (split_all is_slash body) [])).

Fixpoint decimal_digits (fuel n : nat) (acc : list ascii) : list ascii :=
  match fuel with
  | 0 => acc
  | S f =>
      let acc' := chr (48 + n mod 10) :: acc in
      if (n / 10 =? 0)%nat then acc' else decimal_digits f (n / 10) acc'
  end.

Definition credentials (info : list ascii) : list ascii :=
  let (user, rest) := break_at (is_char 58) info in
  let password := tl rest in
  match user, password with
  | [], [] => []
  | _, [] => (encode userinfo_set user ++ ["@"%char])%list
  | _, _ :: _ =>
      (encode userinfo_set user ++ ":"%char :: encode userinfo_set password
       ++ ["@"%char])%list
  end.

(** The URL serialiser. *)
Definition serialize (p : Parts) : string :=
  string_of_list_ascii
    (list_ascii_of_string (scheme p ++ "://")
     ++ credentials (userinfo p)
     ++ list_ascii_of_string (host p)
     ++ match port p with
        | Some n => ":"%char :: decimal_digits 5 n []
        | None => []
        end
     ++ serialize_path (path p)
     ++ match query p with
        | Some q => "?"%char :: encode special_query_set q
        | None => []
        end
     ++ match fragment p with
        | Some f => "#"%char :: encode fragment_set f
        | None => []
        end)%list.

(** The [url] of [new Request(s, ...)]: the serialisation of the parsed
    input. *)
Definition href (s : string) : string :=
  match parse_parts s with
  | Parsed p => serialize p
  | _ => s
  end.

(** The [Request] constructor rejects what does not parse, naming its
    input.  What it does with a URL that holds credentials is not
    covered. *)
Definition check_Request (url method : string) : option JsError :=
  match parse_parts url with
  | Parsed p =>
      match credentials (userinfo p) with
      | [] => None
      | _ :: _ => Some unsupported_URL
      end
  | Fails => Some (mkError "TypeError" ("Invalid URL: " ++ url))
  | Unsupported => Some unsupported_URL
  end.

Definition runtime (origin : Request.t -> JsResult Response.t) : Runtime :=
  mkRuntime parse_URL check_Request href origin.

(** An origin that honours a range request. *)
Definition origin_partial (r : Request.t) : JsResult Response.t :=
  Ok (Response.mk 206
        [ ("content-type", "video/mp4");
          ("content-length", "100");
          ("content-range", "bytes 0-99/1000") ]
        (Some "<100 bytes>")).

(** An origin that answers 200 and no length. *)
Definition origin_plain (r : Request.t) : JsResult Response.t :=
  Ok (Response.mk 200 [("Content-Type", "video/webm")] (Some "<bytes>")).

(** An origin that answers with the non-standard status 999. *)
Definition origin_999 (r : Request.t) : JsResult Response.t :=
  Ok (Response.mk 999 [("Content-Type", "text/html")] (Some "denied")).

(** An origin that cannot be reached. *)
Definition origin_down (r : Request.t) : JsResult Response.t :=
  Throw (mkError "TypeError" "Network connection lost.").

(** [METHOD https://proxy.example/?vid=<vid>] with the given headers. *)
Definition request_for (method vid : string) (hs : Headers) : Request.t :=
  Request.mk ("https://proxy.example/?vid=" ++ vid) method hs None.

End Sample.

(* ================================================================== *)
(** * The runs of the worker *)
(* ================================================================== *)

Import Proxy.

(** The responses the worker can build. *)

Definition preflight_response : Response.t :=
  Response.mk 200 cors_headers None.

Definition json_error (status : Z) (fields : list (string * string))
  : Response.t :=
  Response.mk status [("Content-Type", "application/json")]
    (Some (JSON_stringify fields)).

Definition missing_token : Response.t :=
  json_error 400 [("error", "Missing video ID")].

Definition invalid_token : Response.t :=
  json_error 400 [("error", "Invalid video ID")].

Definition invalid_url : Response.t :=
  json_error 400 [("error", "Invalid URL")].

Definition unauthorized : Response.t :=
  json_error 403 [("error", "Unauthorized domain")].

Definition server_error_response (error : JsError) : Response.t :=
  json_error 500 [("error", "Server error"); ("message", message error)].

(** The request the worker sends to the origin. *)
Definition videoRequest_of (rt : Runtime) (request : Request.t)
    (originalUrl : string) : Request.t :=
  Request.mk (Request_href rt originalUrl) (Request.method request)
    (Headers_new (videoRequest_headers request)) None.

(** The answer built from the origin's. *)
Definition relayed (videoResponse : Response.t) : Response.t :=
  Response.mk (Response.status videoResponse)
    (responseHeaders_of videoResponse) (Response.body videoResponse).

Definition constructible (status : Z) : Prop := (200 <= status <= 599)%Z.

(** The request carries a token that decodes to [originalUrl]. *)
Definition Decodes (rt : Runtime) (request : Request.t)
    (token originalUrl : string) : Prop :=
  Request.method request <> "OPTIONS" /\
  exists url,
    URL_new rt (Request.url request) = Ok url /\
    searchParams_get (URL.searchParams url) "vid" = Some token /\
    token <> "" /\
    atob token = Some originalUrl.

(** [s] contains [sub] as a substring. *)
Definition Substring (sub s : string) : Prop :=
  exists pre post, s = pre ++ sub ++ post.

(** The allowlist stage lets [originalUrl] through.  The policy is [None]
    where the block is commented out, [Some allowedDomains] where it is
    active. *)
Definition Passes_allowlist (rt : Runtime) (policy : option (list string))
    (originalUrl : string) : Prop :=
  match policy with
  | None => True
  | Some allowedDomains =>
      exists urlObj,
        URL_new rt originalUrl = Ok urlObj /\
        (existsb (fun domain => includes (URL.hostname urlObj) domain)
                 allowedDomains = true
         \/ allowedDomains = [])
  end.

(** From the construction of [videoRequest] on: calls made and answer. *)
Inductive Relay (rt : Runtime) (request : Request.t) (originalUrl : string)
  : list Call -> Response.t -> Prop :=
| relay_request_rejected e :
    Request_check rt originalUrl (Request.method request) = Some e ->
    Relay rt request originalUrl [] (server_error_response e)
| relay_fetch_failed e :
    Request_check rt originalUrl (Request.method request) = None ->
    fetch rt (videoRequest_of rt request originalUrl) = Throw e ->
    Relay rt request originalUrl
      [CallFetch (videoRequest_of rt request originalUrl)]
      (server_error_response e)
| relay_status_rejected videoResponse :
    Request_check rt originalUrl (Request.method request) = None ->
    fetch rt (videoRequest_of rt request originalUrl) = Ok videoResponse ->
    ~ constructible (Response.status videoResponse) ->
    Relay rt request originalUrl
      [CallFetch (videoRequest_of rt request originalUrl)]
      (server_error_response status_RangeError)
| relay_done videoResponse :
    Request_check rt originalUrl (Request.method request) = None ->
    fetch rt (videoRequest_of rt request originalUrl) = Ok videoResponse ->
    constructible (Response.status videoResponse) ->
    Relay rt request originalUrl
      [CallFetch (videoRequest_of rt request originalUrl)]
      (relayed videoResponse).

(** Every way the handler can run, with the calls it makes and its answer. *)
Inductive Run (rt : Runtime) (policy : option (list string))
    (request : Request.t) : list Call -> Response.t -> Prop :=
| run_preflight :
    Request.method request = "OPTIONS" ->
    Run rt policy request [] preflight_response
| run_own_url_rejected e :
    Request.method request <> "OPTIONS" ->
    URL_new rt (Request.url request) = Throw e ->
    Run rt policy request [] (server_error_response e)
| run_missing_token url :
    Request.method request <> "OPTIONS" ->
    URL_new rt (Request.url request) = Ok url ->
    falsy (searchParams_get (URL.searchParams url) "vid") = true ->
    Run rt policy request [] missing_token
| run_invalid_token url token :
    Request.method request <> "OPTIONS" ->
    URL_new rt (Request.url request) = Ok url ->
    searchParams_get (URL.searchParams url) "vid" = Some token ->
    token <> "" ->
    atob token = None ->
    Run rt policy request [CallAtob token] invalid_token
| run_invalid_url token originalUrl :
    Decodes rt request token originalUrl ->
    bad_scheme originalUrl = true ->
    Run rt policy request [CallAtob token] invalid_url
| run_origin_url_rejected token originalUrl allowedDomains e :
    Decodes rt request token originalUrl ->
    bad_scheme originalUrl = false ->
    policy = Some allowedDomains ->
    URL_new rt originalUrl = Throw e ->
    Run rt policy request [CallAtob token] (server_error_response e)
| run_unauthorized token originalUrl allowedDomains urlObj :
    Decodes rt request token originalUrl ->
    bad_scheme originalUrl = false ->
    policy = Some allowedDomains ->
    URL_new rt originalUrl = Ok urlObj ->
    existsb (fun domain => includes (URL.hostname urlObj) domain)
            allowedDomains = false ->
    allowedDomains <> [] ->
    Run rt policy request [CallAtob token] unauthorized
| run_relay token originalUrl calls response :
    Decodes rt request token originalUrl ->
    bad_scheme originalUrl = false ->
    Passes_allowlist rt policy originalUrl ->
    Relay rt request originalUrl calls response ->
    Run rt policy request (CallAtob token :: calls) response.

(* ================================================================== *)
(** * Properties *)
(* ================================================================== *)

(** ** The handler follows [Run] *)

Lemma falsy_Some_false (t : string) : falsy (Some t) = false -> t <> "".
Proof.
  unfold falsy. intros H ->. discriminate.
Qed.

Lemma constructible_dec (st : Z) :
  ((st <? 200) || (599 <? st))%Z = false <-> constructible st.
Proof.
  unfold constructible. rewrite orb_false_iff, !Z.ltb_ge. lia.
Qed.

Lemma Response_new_ok body st hs :
  constructible st ->
  Response_new body (Some st) hs = Ok (Response.mk st hs body).
Proof.
  intros H. unfold Response_new.
  apply constructible_dec in H. rewrite H. reflexivity.
Qed.

Lemma Response_new_throw body st hs :
  ~ constructible st ->
  Response_new body (Some st) hs = Throw status_RangeError.
Proof.
  intros H. unfold Response_new.
  destruct ((st <? 200) || (599 <? st))%Z eqn:E; [reflexivity|].
  apply constructible_dec in E. contradiction.
Qed.

Lemma error_response_eq st fields :
  constructible st ->
  error_response st fields = ([], Ok (json_error st fields)).
Proof.
  intros H. unfold error_response, lift.
  rewrite Response_new_ok by assumption. reflexivity.
Qed.

Lemma server_error_eq e :
  server_error e = ([], Ok (server_error_response e)).
Proof.
  unfold server_error. apply error_response_eq. unfold constructible. lia.
Qed.

Lemma bind_ok {A B} t (a : A) (k : A -> M B) :
  bind (t, Ok a) k = ((t ++ trace (k a))%list, result (k a)).
Proof.
  unfold bind, trace, result. now destruct (k a).
Qed.

Lemma bind_throw {A B} t e (k : A -> M B) :
  bind (t, Throw e) k = (t, Throw e).
Proof. reflexivity. Qed.

Lemma try_catch_ok {A} t (a : A) h : try_catch (t, Ok a) h = (t, Ok a).
Proof. reflexivity. Qed.

Lemma try_catch_throw {A} t e (h : JsError -> M A) :
  try_catch (t, Throw e) h = ((t ++ trace (h e))%list, result (h e)).
Proof.
  unfold try_catch, trace, result. now destruct (h e).
Qed.

(** The four ways [relay] can end. *)
Lemma relay_cases rt request originalUrl :
  exists calls response,
    try_catch (relay rt request originalUrl) server_error
    = (calls, Ok response)
    /\ Relay rt request originalUrl calls response.
Proof.
  unfold relay, Request_new, lift.
  destruct (Request_check rt originalUrl (Request.method request)) as [e|] eqn:Hc.
  - exists [], (server_error_response e). split; [|now constructor].
    rewrite bind_throw, try_catch_throw, server_error_eq. reflexivity.
  - fold (videoRequest_of rt request originalUrl).
    rewrite bind_ok. unfold call_fetch.
    exists [CallFetch (videoRequest_of rt request originalUrl)].
    destruct (fetch rt (videoRequest_of rt request originalUrl)) as [o|e] eqn:Hf.
    + rewrite bind_ok. cbn [trace result fst snd app].
      destruct (Z_le_dec 200 (Response.status o)) as [Hlo|Hlo];
        [destruct (Z_le_dec (Response.status o) 599) as [Hhi|Hhi]|].
      * exists (relayed o). split; [|now constructor].
        rewrite Response_new_ok by (split; assumption). reflexivity.
      * exists (server_error_response status_RangeError).
        split; [|apply relay_status_rejected with o; unfold constructible; auto; lia].
        rewrite Response_new_throw by (unfold constructible; lia).
        rewrite try_catch_throw, server_error_eq. reflexivity.
      * exists (server_error_response status_RangeError).
        split; [|apply relay_status_rejected with o; unfold constructible; auto; lia].
        rewrite Response_new_throw by (unfold constructible; lia).
        rewrite try_catch_throw, server_error_eq. reflexivity.
    + exists (server_error_response e). split; [|now constructor].
      rewrite bind_throw. cbn [trace result fst snd app].
      rewrite try_catch_throw, server_error_eq. reflexivity.
Qed.

Lemma try_catch_bind_ok {A B} t (a : A) (k : A -> M B) h :
  try_catch (bind (t, Ok a) k) h
  = ((t ++ trace (try_catch (k a) h))%list, result (try_catch (k a) h)).
Proof.
  unfold bind, try_catch, trace, result.
  destruct (k a) as [t' [b|e]]; cbn; [reflexivity|].
  destruct (h e) as [t'' r]. cbn. now rewrite app_assoc.
Qed.

Lemma decode_eq token :
  decode (Some token) = ([CallAtob token], Ok (atob token)).
Proof.
  unfold decode, call_atob, string_of.
  destruct (atob token); reflexivity.
Qed.

Lemma constructible_400 : constructible 400.
Proof. unfold constructible. lia. Qed.

Lemma constructible_403 : constructible 403.
Proof. unfold constructible. lia. Qed.

Create HintDb worker.
#[local] Hint Resolve constructible_400 constructible_403 : worker.

(** Rewrites an error answer inside the outer [try]. *)
Ltac answer_error :=
  rewrite error_response_eq by auto with worker;
  rewrite ?try_catch_ok; cbn [trace result fst snd app].

Lemma preflight_eq : preflight = ([], Ok preflight_response).
Proof. reflexivity. Qed.

(** [src/cloudflare_worder.js] runs as [Run] says, without an allowlist. *)
Lemma worker_runs rt request :
  exists calls response,
    CloudflareWorker.handleRequest rt request = (calls, Ok response)
    /\ Run rt None request calls response.
Proof.
  unfold CloudflareWorker.handleRequest.
  destruct (String.eqb_spec (Request.method request) "OPTIONS") as [Hm|Hm].
  { exists [], preflight_response. split; [apply preflight_eq|now constructor]. }
  change (lift (URL_new rt (Request.url request)))
    with (@nil Call, URL_new rt (Request.url request)).
  destruct (URL_new rt (Request.url request)) as [url|e] eqn:Hu.
  2:{ exists [], (server_error_response e). split; [|now constructor].
      rewrite bind_throw, try_catch_throw, server_error_eq. reflexivity. }
  rewrite try_catch_bind_ok. cbn [app].
  destruct (falsy (searchParams_get (URL.searchParams url) "vid")) eqn:Hf.
  { exists [], missing_token. split; [|now apply run_missing_token with url].
    answer_error. reflexivity. }
  destruct (searchParams_get (URL.searchParams url) "vid") as [token|] eqn:Hv;
    [|discriminate].
  apply falsy_Some_false in Hf.
  rewrite decode_eq, try_catch_bind_ok. cbn [app].
  destruct (atob token) as [originalUrl|] eqn:Ha.
  2:{ exists [CallAtob token], invalid_token.
      split; [|now apply run_invalid_token with url].
      answer_error. reflexivity. }
  assert (Hd : Decodes rt request token originalUrl).
  { split; [assumption|]. exists url. auto. }
  destruct (bad_scheme originalUrl) eqn:Hs.
  { exists [CallAtob token], invalid_url.
    split; [|now apply run_invalid_url with originalUrl].
    answer_error. reflexivity. }
  destruct (relay_cases rt request originalUrl) as (calls & response & Hr & HR).
  exists (CallAtob token :: calls), response. split.
  - rewrite Hr. reflexivity.
  - apply run_relay with originalUrl; auto. exact I.
Qed.

(** The second variant runs as [Run] says, with its list as the policy. *)
Lemma allowlisted_runs rt allowedDomains request :
  exists calls response,
    Allowlisted.handleRequest rt allowedDomains request = (calls, Ok response)
    /\ Run rt (Some allowedDomains) request calls response.
Proof.
  unfold Allowlisted.handleRequest.
  destruct (String.eqb_spec (Request.method request) "OPTIONS") as [Hm|Hm].
  { exists [], preflight_response. split; [apply preflight_eq|now constructor]. }
  change (lift (URL_new rt (Request.url request)))
    with (@nil Call, URL_new rt (Request.url request)).
  destruct (URL_new rt (Request.url request)) as [url|e] eqn:Hu.
  2:{ exists [], (server_error_response e). split; [|now constructor].
      rewrite bind_throw, try_catch_throw, server_error_eq. reflexivity. }
  rewrite try_catch_bind_ok. cbn [app].
  destruct (falsy (searchParams_get (URL.searchParams url) "vid")) eqn:Hf.
  { exists [], missing_token. split; [|now apply run_missing_token with url].
    answer_error. reflexivity. }
  destruct (searchParams_get (URL.searchParams url) "vid") as [token|] eqn:Hv;
    [|discriminate].
  apply falsy_Some_false in Hf.
  rewrite decode_eq, try_catch_bind_ok. cbn [app].
  destruct (atob token) as [originalUrl|] eqn:Ha.
  2:{ exists [CallAtob token], invalid_token.
      split; [|now apply run_invalid_token with url].
      answer_error. reflexivity. }
  assert (Hd : Decodes rt request token originalUrl).
  { split; [assumption|]. exists url. auto. }
  destruct (bad_scheme originalUrl) eqn:Hs.
  { exists [CallAtob token], invalid_url.
    split; [|now apply run_invalid_url with originalUrl].
    answer_error. reflexivity. }
  change (lift (URL_new rt originalUrl))
    with (@nil Call, URL_new rt originalUrl).
  destruct (URL_new rt originalUrl) as [urlObj|e] eqn:Hp.
  2:{ exists [CallAtob token], (server_error_response e).
      split; [|now apply run_origin_url_rejected with originalUrl allowedDomains].
      rewrite bind_throw, try_catch_throw, server_error_eq. reflexivity. }
  rewrite try_catch_bind_ok. cbn [app].
  destruct (existsb (fun domain => includes (URL.hostname urlObj) domain)
                    allowedDomains) eqn:Hx; cbn [negb andb].
  - destruct (relay_cases rt request originalUrl) as (calls & response & Hr & HR).
    exists (CallAtob token :: calls), response. split.
    + rewrite Hr. reflexivity.
    + apply run_relay with originalUrl; auto. exists urlObj. auto.
  - destruct allowedDomains as [|d ds].
    + cbn [length Nat.ltb Nat.leb].
      destruct (relay_cases rt request originalUrl) as (calls & response & Hr & HR).
      exists (CallAtob token :: calls), response. split.
      * rewrite Hr. reflexivity.
      * apply run_relay with originalUrl; auto. exists urlObj. auto.
    + cbn [length Nat.ltb Nat.leb].
      exists [CallAtob token], unauthorized. split.
      * answer_error. reflexivity.
      * apply run_unauthorized with originalUrl (d :: ds) urlObj; auto.
        discriminate.
Qed.

(** ** [Run] is a function of the runtime, the policy and the request *)

(** Merges two equations on the same platform call. *)
Ltac same_call :=
  repeat match goal with
  | H : ?x = ?a, H' : ?x = ?b |- _ =>
      first [ constr_eq a b; clear H'
            | rewrite H in H'; inversion H'; subst; clear H' ]
  end.

Ltac open_decodes :=
  repeat match goal with
  | H : Decodes _ _ _ _ |- _ =>
      let url := fresh "url" in
      destruct H as (? & url & ? & ? & ? & ?)
  end.

Lemma Relay_deterministic rt request originalUrl calls1 r1 calls2 r2 :
  Relay rt request originalUrl calls1 r1 ->
  Relay rt request originalUrl calls2 r2 ->
  calls1 = calls2 /\ r1 = r2.
Proof.
  intros H1 H2.
  inversion H1; subst; inversion H2; subst; same_call;
    try (split; reflexivity); try contradiction; try discriminate.
Qed.

Lemma Run_deterministic rt policy request calls1 r1 calls2 r2 :
  Run rt policy request calls1 r1 ->
  Run rt policy request calls2 r2 ->
  calls1 = calls2 /\ r1 = r2.
Proof.
  intros H1 H2.
  inversion H1; subst; inversion H2; subst; open_decodes; same_call;
    try (split; reflexivity); try contradiction; try discriminate;
    try match goal with
        | H : falsy (searchParams_get ?p ?n) = true,
          H' : searchParams_get ?p ?n = Some _ |- _ =>
            rewrite H' in H; cbn [falsy] in H;
            apply String.eqb_eq in H; contradiction
        end.
  all: try match goal with
       | H : Passes_allowlist _ (Some _) _ |- _ =>
           destruct H as (? & ? & [?|?]); same_call;
           try discriminate; try contradiction; try congruence
       end.
  all: match goal with
       | Ha : Relay _ _ _ _ _, Hb : Relay _ _ _ _ _ |- _ =>
           destruct (Relay_deterministic _ _ _ _ _ _ _ Ha Hb); subst;
           split; reflexivity
       end.
Qed.

Lemma worker_run_complete rt request calls response :
  Run rt None request calls response ->
  CloudflareWorker.handleRequest rt request = (calls, Ok response).
Proof.
  intros H.
  destruct (worker_runs rt request) as (calls' & response' & Heq & H').
  destruct (Run_deterministic _ _ _ _ _ _ _ H H'); subst. exact Heq.
Qed.

Lemma allowlisted_run_complete rt allowedDomains request calls response :
  Run rt (Some allowedDomains) request calls response ->
  Allowlisted.handleRequest rt allowedDomains request = (calls, Ok response).
Proof.
  intros H.
  destruct (allowlisted_runs rt allowedDomains request)
    as (calls' & response' & Heq & H').
  destruct (Run_deterministic _ _ _ _ _ _ _ H H'); subst. exact Heq.
Qed.

(** ** Strings *)

Lemma prefix_app (p s : string) :
  String.prefix p s = true <-> exists post, s = p ++ post.
Proof.
  revert s. induction p as [|a p IH]; intros [|b s]; cbn.
  - split; [intros _; now exists ""|reflexivity].
  - split; [intros _; now exists (String b s)|reflexivity].
  - split; [discriminate|intros (post & H); discriminate].
  - destruct (ascii_dec a b) as [->|Hab].
    + rewrite IH. split; intros (post & H); exists post.
      * now rewrite H.
      * now injection H.
    + split; [discriminate|]. intros (post & H). injection H as H1 H2.
      congruence.
Qed.

Lemma string_app_assoc (a b c : string) : (a ++ b) ++ c = a ++ (b ++ c).
Proof.
  induction a as [|x a IH]; cbn [append]; [reflexivity|]. now rewrite IH.
Qed.

Lemma includes_Substring (s sub : string) :
  includes s sub = true <-> Substring sub s.
Proof.
  unfold Substring. split.
  - induction s as [|c s IH]; cbn [includes]; rewrite orb_true_iff.
    + intros [H|H]; [|discriminate].
      apply prefix_app in H as (post & H). now exists "", post.
    + intros [H|H].
      * apply prefix_app in H as (post & H). now exists "", post.
      * destruct (IH H) as (pre & post & ->). now exists (String c pre), post.
  - intros (pre & post & ->).
    induction pre as [|c pre IH].
    + cbn [append].
      assert (Hp : String.prefix sub (sub ++ post) = true)
        by (apply prefix_app; now exists post).
      destruct (sub ++ post); cbn [includes]; rewrite Hp; reflexivity.
    + cbn [append includes]. rewrite IH. apply orb_true_r.
Qed.

(** ** Base64 *)

Ltac Zify.zify_post_hook ::= Z.to_euclidean_division_equations.

Lemma list_ind3 {A} (P : list A -> Prop) :
  P [] ->
  (forall a, P [a]) ->
  (forall a b, P [a; b]) ->
  (forall a b c r, P r -> P (a :: b :: c :: r)) ->
  forall l, P l.
Proof.
  intros H0 H1 H2 H3.
  fix IH 1.
  intros [|a [|b [|c r]]];
    [exact H0 | apply H1 | apply H2 | apply H3; apply IH].
Qed.

Lemma table_checked : forallb table_ok (seq 0 64) = true.
Proof. vm_compute. reflexivity. Qed.

Lemma table_spec n :
  n < 64 ->
  sextet_of_char (char_of_sextet n) = Some n
  /\ is_ascii_whitespace (char_of_sextet n) = false
  /\ Ascii.eqb (char_of_sextet n) pad = false.
Proof.
  intros Hn.
  pose proof table_checked as H. rewrite forallb_forall in H.
  specialize (H n). unfold table_ok in H.
  assert (Hin : In n (seq 0 64)) by (apply in_seq; lia).
  apply H in Hin. rewrite !andb_true_iff, !negb_true_iff in Hin.
  destruct Hin as [[H1 H2] H3].
  destruct (sextet_of_char (char_of_sextet n)) as [m|]; [|discriminate].
  apply Nat.eqb_eq in H1. subst. auto.
Qed.

Ltac byte_bounds :=
  repeat match goal with
  | |- context [nat_of_ascii ?a] =>
      let n := fresh "n" in
      let Hn := fresh "Hn" in
      pose proof (nat_ascii_bounded a) as Hn;
      remember (nat_of_ascii a) as n; clear dependent a
  end.

Lemma sextets_bounded bs : Forall (fun n => n < 64) (sextets_of_bytes bs).
Proof.
  induction bs as [|a|a b|a b c r IH] using list_ind3;
    cbn [sextets_of_bytes];
    repeat (apply Forall_cons; [byte_bounds; lia|]);
    try assumption; apply Forall_nil.
Qed.

Lemma ascii_of_nat_of (a : ascii) (n : nat) :
  n = nat_of_ascii a -> ascii_of_nat n = a.
Proof. intros ->. apply ascii_nat_embedding. Qed.

Lemma bytes_of_sextets_of_bytes bs :
  bytes_of_sextets (sextets_of_bytes bs) = bs.
Proof.
  induction bs as [|a|a b|a b c r IH] using list_ind3;
    cbn [sextets_of_bytes bytes_of_sextets]; rewrite ?IH;
    repeat match goal with
    | |- _ :: _ = _ :: _ => f_equal
    end;
    try reflexivity; apply ascii_of_nat_of; byte_bounds; lia.
Qed.

Lemma sextets_of_chars ss :
  Forall (fun n => n < 64) ss ->
  sextets_of (map char_of_sextet ss) = Some ss.
Proof.
  induction 1 as [|n ss Hn _ IH]; cbn [map sextets_of]; [reflexivity|].
  destruct (table_spec n Hn) as (-> & _). now rewrite IH.
Qed.

Lemma chars_no_whitespace ss :
  Forall (fun n => n < 64) ss ->
  filter (fun c => negb (is_ascii_whitespace c)) (map char_of_sextet ss)
  = map char_of_sextet ss.
Proof.
  induction 1 as [|n ss Hn _ IH]; cbn [map filter]; [reflexivity|].
  destruct (table_spec n Hn) as (_ & -> & _). cbn [negb]. now rewrite IH.
Qed.

Lemma padding_no_whitespace bs :
  filter (fun c => negb (is_ascii_whitespace c)) (padding_of bs) = padding_of bs.
Proof.
  unfold padding_of. destruct (length bs mod 3) as [|[|[|k]]]; reflexivity.
Qed.

Lemma mod3_step n : S (S (S n)) mod 3 = n mod 3.
Proof. lia. Qed.

Lemma mod4_step n : S (S (S (S n))) mod 4 = n mod 4.
Proof. lia. Qed.

(** Length of the unpadded text, by the length of the input modulo 3. *)
Lemma sextets_length bs :
  length (sextets_of_bytes bs) mod 4
  = match length bs mod 3 with
    | 0 => 0
    | 1 => 2
    | _ => 3
    end.
Proof.
  induction bs as [|a|a b|a b c r IH] using list_ind3;
    cbn [sextets_of_bytes length]; try reflexivity.
  now rewrite mod3_step, mod4_step.
Qed.

Lemma padded_length bs :
  length (map char_of_sextet (sextets_of_bytes bs) ++ padding_of bs) mod 4 = 0.
Proof.
  rewrite length_app, length_map.
  pose proof (sextets_length bs) as H. unfold padding_of.
  assert (Hlt : length bs mod 3 < 3) by (apply Nat.mod_upper_bound; lia).
  destruct (length bs mod 3) as [|[|[|k]]]; cbn [length]; lia.
Qed.

Lemma last_char_not_pad ss c rest :
  Forall (fun n => n < 64) ss ->
  rev (map char_of_sextet ss) = c :: rest ->
  Ascii.eqb c pad = false.
Proof.
  intros Hss Hrev.
  assert (Hin : In c (map char_of_sextet ss)).
  { apply in_rev. rewrite Hrev. now left. }
  apply in_map_iff in Hin as (n & <- & Hn).
  rewrite Forall_forall in Hss.
  now destruct (table_spec n (Hss n Hn)) as (_ & _ & ->).
Qed.

Lemma strip_padding_padded bs :
  strip_padding (map char_of_sextet (sextets_of_bytes bs) ++ padding_of bs)
  = map char_of_sextet (sextets_of_bytes bs).
Proof.
  pose proof (sextets_bounded bs) as Hb.
  pose proof (last_char_not_pad (sextets_of_bytes bs)) as Hlast.
  set (chars := map char_of_sextet (sextets_of_bytes bs)) in *.
  unfold strip_padding, padding_of.
  destruct (length bs mod 3) as [|[|[|k]]].
  - rewrite app_nil_r.
    destruct (rev chars) as [|c [|c' r]] eqn:Hr.
    + reflexivity.
    + now rewrite (Hlast c [] Hb eq_refl).
    + now rewrite (Hlast c (c' :: r) Hb eq_refl).
  - rewrite rev_app_distr. cbn [rev app]. cbn. apply rev_involutive.
  - rewrite rev_app_distr. cbn [rev app].
    destruct (rev chars) as [|c r] eqn:Hr.
    + cbn. apply (f_equal (@rev ascii)) in Hr.
      rewrite rev_involutive in Hr. now rewrite Hr.
    + cbn [Ascii.eqb]. replace (Ascii.eqb pad pad) with true by reflexivity.
      rewrite (Hlast c r Hb eq_refl).
      change (rev r ++ [c])%list with (rev (c :: r)).
      rewrite <- Hr. apply rev_involutive.
  - rewrite app_nil_r.
    destruct (rev chars) as [|c [|c' r]] eqn:Hr.
    + reflexivity.
    + now rewrite (Hlast c [] Hb eq_refl).
    + now rewrite (Hlast c (c' :: r) Hb eq_refl).
Qed.

(** [atob] undoes the standard encoder on every byte sequence. *)
Lemma atob_base64_encode (bs : string) :
  atob (base64_encode bs) = Some bs.
Proof.
  unfold atob, base64_encode.
  rewrite list_ascii_of_string_of_list_ascii.
  set (l := list_ascii_of_string bs).
  rewrite filter_app, chars_no_whitespace by apply sextets_bounded.
  rewrite padding_no_whitespace, padded_length.
  cbn [Nat.eqb]. rewrite strip_padding_padded.
  rewrite length_map.
  pose proof (sextets_length l) as Hlen.
  destruct (length (sextets_of_bytes l) mod 4 =? 1)%nat eqn:E.
  { apply Nat.eqb_eq in E. rewrite E in Hlen.
    destruct (length l mod 3) as [|[|k]]; discriminate. }
  rewrite sextets_of_chars by apply sextets_bounded.
  rewrite bytes_of_sextets_of_bytes. unfold l.
  now rewrite string_of_list_ascii_of_string.
Qed.

Lemma utf8_encode_ascii (s : string) :
  is_ascii s = true -> utf8_encode s = s.
Proof.
  induction s as [|c s IH]; cbn [is_ascii utf8_encode]; [reflexivity|].
  rewrite andb_true_iff. intros [Hc Hs]. rewrite Hc, IH by assumption.
  reflexivity.
Qed.

(** ** Headers *)

Lemma Headers_has_get (h : Headers) (name : string) :
  Headers_has h name = true -> exists v, Headers_get h name = Some v.
Proof.
  unfold Headers_has, Headers_get. intros H.
  apply existsb_exists in H as (kv & Hin & Hm).
  destruct (filter (name_matches name) h) as [|x xs] eqn:E.
  - assert (Hf : In kv (filter (name_matches name) h))
      by (apply filter_In; auto).
    rewrite E in Hf. contradiction.
  - eauto.
Qed.

Lemma Headers_get_has (h : Headers) (name v : string) :
  Headers_get h name = Some v -> Headers_has h name = true.
Proof.
  unfold Headers_has, Headers_get. intros H.
  destruct (filter (name_matches name) h) as [|x xs] eqn:E; [discriminate|].
  assert (Hx : In x (filter (name_matches name) h)) by (rewrite E; now left).
  apply filter_In in Hx as [Hin Hm].
  apply existsb_exists. eauto.
Qed.

(** The header list of a relayed answer: six fixed names, then the
    origin's length and range when it has them. *)
Lemma responseHeaders_shape (videoResponse : Response.t) :
  let vh := Response.headers videoResponse in
  responseHeaders_of videoResponse
  = ([ ("Content-Type", or_else (Headers_get vh "Content-Type") "video/mp4");
       ("Accept-Ranges", or_else (Headers_get vh "Accept-Ranges") "bytes");
       ("Access-Control-Allow-Origin", "*");
       ("Access-Control-Allow-Methods", "GET, HEAD, OPTIONS");
       ("Access-Control-Allow-Headers", "Range, Content-Type");
       ("Cache-Control", "public, max-age=3600") ]
     ++ (if Headers_has vh "Content-Length"
         then [("Content-Length", string_of (Headers_get vh "Content-Length"))]
         else [])
     ++ (if Headers_has vh "Content-Range"
         then [("Content-Range", string_of (Headers_get vh "Content-Range"))]
         else []))%list.
Proof.
  intros vh. unfold responseHeaders_of, Headers_new. fold vh.
  generalize (or_else (Headers_get vh "Content-Type") "video/mp4") as ct.
  generalize (or_else (Headers_get vh "Accept-Ranges") "bytes") as ar.
  generalize (string_of (Headers_get vh "Content-Length")) as cl.
  generalize (string_of (Headers_get vh "Content-Range")) as cr.
  intros cr cl ar ct.
  destruct (Headers_has vh "Content-Length"), (Headers_has vh "Content-Range");
    reflexivity.
Qed.

Lemma relayed_not_json_error videoResponse status fields :
  relayed videoResponse <> json_error status fields.
Proof.
  unfold relayed, json_error. intros H. injection H as _ H _.
  rewrite responseHeaders_shape in H. discriminate.
Qed.

(** ** Facts about runs that the claims share *)

Lemma atob_empty : atob "" = Some "".
Proof. reflexivity. Qed.

Lemma Relay_fetched rt request originalUrl calls r :
  Relay rt request originalUrl calls r ->
  (exists status fields,
      (status = 400%Z \/ status = 403%Z \/ status = 500%Z)
      /\ r = json_error status fields)
  \/ (exists videoResponse,
        calls = [CallFetch (videoRequest_of rt request originalUrl)]
        /\ fetch rt (videoRequest_of rt request originalUrl) = Ok videoResponse
        /\ constructible (Response.status videoResponse)
        /\ r = relayed videoResponse).
Proof.
  intros H. inversion H; subst.
  1-3: left; eexists 500%Z, _; split; [auto|reflexivity].
  right. exists videoResponse. auto.
Qed.

(** Every run ends in exactly one of three ways, and which one is fixed by
    the request: the preflight answer to OPTIONS, the relay of the fetched
    origin answer, or the answer of an error site. *)
Lemma Run_answer rt policy request calls r :
  Run rt policy request calls r ->
  (Request.method request = "OPTIONS" /\ r = preflight_response)
  \/ (Request.method request <> "OPTIONS"
      /\ exists videoRequest videoResponse,
           In (CallFetch videoRequest) calls
           /\ fetch rt videoRequest = Ok videoResponse
           /\ constructible (Response.status videoResponse)
           /\ r = relayed videoResponse)
  \/ (Request.method request <> "OPTIONS"
      /\ (r = missing_token \/ r = invalid_token \/ r = invalid_url
          \/ r = unauthorized
          \/ exists error, r = server_error_response error)).
Proof.
  intros H.
  assert (Hd : forall token originalUrl,
             Decodes rt request token originalUrl ->
             Request.method request <> "OPTIONS").
  { intros token originalUrl Hdec. apply Hdec. }
  inversion H; subst;
    try match goal with
        | Hdec : Decodes _ _ _ _ |- _ => pose proof (Hd _ _ Hdec)
        end.
  - now left.
  - right; right. split; [assumption|]. do 4 right. eauto.
  - right; right. split; [assumption|]. now left.
  - right; right. split; [assumption|]. right. now left.
  - right; right. split; [assumption|]. do 2 right. now left.
  - right; right. split; [assumption|]. do 4 right. eauto.
  - right; right. split; [assumption|]. do 3 right. now left.
  - match goal with HR : Relay _ _ _ _ _ |- _ => inversion HR; subst end.
    + right; right. split; [assumption|]. do 4 right. eauto.
    + right; right. split; [assumption|]. do 4 right. eauto.
    + right; right. split; [assumption|]. do 4 right. eauto.
    + right; left. split; [assumption|].
      eexists _, videoResponse.
      split; [|split; [eassumption|split; [assumption|reflexivity]]].
      right. now left.
Qed.

Lemma Relay_total rt request originalUrl :
  exists calls r, Relay rt request originalUrl calls r.
Proof.
  destruct (relay_cases rt request originalUrl) as (calls & r & _ & H). eauto.
Qed.

Lemma Relay_not_unauthorized rt request originalUrl calls r :
  Relay rt request originalUrl calls r -> r <> unauthorized.
Proof.
  intros H. inversion H; subst; try discriminate.
  apply relayed_not_json_error.
Qed.

Lemma no_entry_matches (hostname : string) (allowedDomains : list string) :
  existsb (fun domain => includes hostname domain) allowedDomains = false
  <-> forall domain, In domain allowedDomains -> ~ Substring domain hostname.
Proof.
  split.
  - intros H domain Hin Hsub.
    apply includes_Substring in Hsub.
    assert (Ht : existsb (fun d => includes hostname d) allowedDomains = true)
      by (apply existsb_exists; eauto).
    congruence.
  - intros H.
    destruct (existsb _ allowedDomains) eqn:E; [|reflexivity].
    apply existsb_exists in E as (domain & Hin & Hinc).
    apply includes_Substring in Hinc. now apply H in Hin.
Qed.

Lemma Run_without_allowlist rt policy request calls r :
  policy = None \/ policy = Some [] ->
  Run rt policy request calls r ->
  r <> unauthorized.
Proof.
  intros Hp H. inversion H; subst; try discriminate.
  - destruct Hp as [Hp|Hp]; [discriminate|]. injection Hp as Hp. contradiction.
  - eapply Relay_not_unauthorized; eassumption.
Qed.

Lemma Relay_fetches rt request originalUrl calls r :
  Request_check rt originalUrl (Request.method request) = None ->
  Relay rt request originalUrl calls r ->
  calls = [CallFetch (videoRequest_of rt request originalUrl)].
Proof.
  intros Hc H. inversion H; subst; [congruence|reflexivity..].
Qed.

Lemma or_else_empty (v : option string) :
  or_else v "" = match v with Some s => s | None => "" end.
Proof.
  destruct v as [s|]; cbn [or_else]; [|reflexivity].
  destruct (String.eqb_spec s ""); congruence.
Qed.

(** Whatever is fetched is the request built from the decoded URL. *)
Lemma Run_fetch rt policy request calls r videoRequest :
  Run rt policy request calls r ->
  In (CallFetch videoRequest) calls ->
  exists token originalUrl,
    Decodes rt request token originalUrl
    /\ bad_scheme originalUrl = false
    /\ Passes_allowlist rt policy originalUrl
    /\ Relay rt request originalUrl
         [CallFetch (videoRequest_of rt request originalUrl)] r
    /\ calls = [CallAtob token; CallFetch (videoRequest_of rt request originalUrl)]
    /\ videoRequest = videoRequest_of rt request originalUrl.
Proof.
  intros H Hin.
  inversion H; subst; cbn [In] in Hin;
    try contradiction;
    try (destruct Hin as [Hin|[]]; discriminate).
  destruct Hin as [Hin|Hin]; [discriminate|].
  match goal with HR : Relay _ _ _ _ _ |- _ =>
    inversion HR; subst; cbn [In] in Hin; try contradiction
  end.
  all: destruct Hin as [Hin|[]]; injection Hin as <-.
  all: exists token, originalUrl.
  all: do 4 (split; [assumption|]); split; reflexivity.
Qed.

Lemma Headers_has_false_get (h : Headers) (name : string) :
  Headers_has h name = false -> Headers_get h name = None.
Proof.
  intros H. destruct (Headers_get h name) as [v|] eqn:E; [|reflexivity].
  apply Headers_get_has in E. congruence.
Qed.

(** The relayed headers carry the origin's length and range, and only
    when the origin has them. *)
Lemma relayed_length_and_range (videoResponse : Response.t) :
  let vh := Response.headers videoResponse in
  let rh := responseHeaders_of videoResponse in
  Headers_get rh "Content-Range" = Headers_get vh "Content-Range"
  /\ Headers_get rh "Content-Length" = Headers_get vh "Content-Length"
  /\ Headers_has rh "Content-Length" = Headers_has vh "Content-Length"
  /\ Headers_has rh "Content-Range" = Headers_has vh "Content-Range".
Proof.
  intros vh rh. unfold rh. rewrite responseHeaders_shape. fold vh.
  generalize (or_else (Headers_get vh "Content-Type") "video/mp4") as ct.
  generalize (or_else (Headers_get vh "Accept-Ranges") "bytes") as ar.
  intros ar ct.
  destruct (Headers_has vh "Content-Length") eqn:Hl;
    destruct (Headers_has vh "Content-Range") eqn:Hr;
    repeat match goal with
    | H : Headers_has vh ?n = true |- _ =>
        apply Headers_has_get in H as (? & ->)
    | H : Headers_has vh ?n = false |- _ =>
        apply Headers_has_false_get in H as ->
    end;
    repeat split; reflexivity.
Qed.

Lemma Relay_of_fetched rt request originalUrl r videoResponse :
  Relay rt request originalUrl
    [CallFetch (videoRequest_of rt request originalUrl)] r ->
  fetch rt (videoRequest_of rt request originalUrl) = Ok videoResponse ->
  constructible (Response.status videoResponse) ->
  r = relayed videoResponse.
Proof.
  intros H Hf Hst.
  inversion H; subst.
  - congruence.
  - match goal with
    | Hn : ~ constructible _, Hf' : fetch _ _ = Ok ?o |- _ =>
        replace o with videoResponse in * by congruence
    end.
    contradiction.
  - congruence.
Qed.

(** The first half of C1 holds: a decoded string without the http:// or
    https:// prefix is answered 400 {"error":"Invalid URL"}. *)
Lemma bad_scheme_is_400 rt allowedDomains request token originalUrl :
  Decodes rt request token originalUrl ->
  bad_scheme originalUrl = true ->
  CloudflareWorker.handleRequest rt request
  = ([CallAtob token], Ok invalid_url)
  /\ Allowlisted.handleRequest rt allowedDomains request
     = ([CallAtob token], Ok invalid_url).
Proof.
  intros Hd Hs. split.
  - apply worker_run_complete. now apply run_invalid_url with originalUrl.
  - apply allowlisted_run_complete. now apply run_invalid_url with originalUrl.
Qed.

(** The second half does not: a decoded string with the prefix that the
    platform refuses to parse reaches the outer catch.  In the allowlisted
    variant [new URL] throws; in [src/cloudflare_worder.js] the [Request]
    constructor does. *)
Lemma unparseable_is_500 rt allowedDomains request token originalUrl e :
  Decodes rt request token originalUrl ->
  bad_scheme originalUrl = false ->
  (URL_new rt originalUrl = Throw e ->
   Allowlisted.handleRequest rt allowedDomains request
   = ([CallAtob token], Ok (server_error_response e)))
  /\ (Request_check rt originalUrl (Request.method request) = Some e ->
      CloudflareWorker.handleRequest rt request
      = ([CallAtob token], Ok (server_error_response e))).
Proof.
  intros Hd Hs. split; intros H.
  - apply allowlisted_run_complete.
    now apply run_origin_url_rejected with originalUrl allowedDomains.
  - apply worker_run_complete.
    apply run_relay with originalUrl; auto; [exact I|now constructor].
Qed.

Lemma json_escape_plain (c : ascii) :
  ((32 <=? nat_of_ascii c) && negb (nat_of_ascii c =? 34)
   && negb (nat_of_ascii c =? 92))%nat = true ->
  json_escape c = String c "".
Proof.
  rewrite !andb_true_iff, !negb_true_iff, Nat.leb_le, !Nat.eqb_neq.
  intros [[H32 H34] H92]. unfold json_escape.
  repeat match goal with
  | |- context [(nat_of_ascii c =? ?k)%nat] =>
      destruct (Nat.eqb_spec (nat_of_ascii c) k); [lia|]
  end.
  destruct (Nat.ltb_spec (nat_of_ascii c) 32); [lia|reflexivity].
Qed.

Lemma json_escape_all_plain (s : string) :
  json_plain s = true -> json_escape_all s = s.
Proof.
  induction s as [|c s IH]; cbn [json_plain json_escape_all]; [reflexivity|].
  rewrite andb_true_iff. intros [Hc Hs].
  rewrite json_escape_plain, IH by assumption. reflexivity.
Qed.

(** The 500 answer carries the error's message; when the message needs no
    escaping it is there verbatim, with whatever it names. *)
Lemma server_error_carries_message (error : JsError) (text : string) :
  json_plain (message error) = true ->
  Substring text (message error) ->
  exists body,
    Response.body (server_error_response error) = Some body
    /\ Substring text body.
Proof.
  intros Hp (pre & post & Hm).
  eexists. split; [reflexivity|].
  unfold JSON_stringify, json_members, json_quote at 4.
  rewrite json_escape_all_plain, Hm by assumption.
  exists ("{" ++ json_quote "error" ++ ":" ++ json_quote "Server error"
          ++ "," ++ json_quote "message" ++ ":" ++ String dquote pre),
         (post ++ String dquote "" ++ "}").
  generalize (json_quote "error"), (json_quote "Server error"),
             (json_quote "message").
  intros a b c.
  repeat first [rewrite string_app_assoc | progress cbn [append]].
  reflexivity.
Qed.

(** What does hold of C3: the preflight answer and the 400 and 403 answers
    are fixed texts, and none of them contains a string that passed scheme
    validation. *)
Lemma fixed_answers_do_not_echo (originalUrl : string) (r : Response.t) :
  bad_scheme originalUrl = false ->
  In r [preflight_response; missing_token; invalid_token; invalid_url;
        unauthorized] ->
  forall text,
    Response.body r = Some text \/ In text (map snd (Response.headers r)) ->
    ~ Substring originalUrl text.
Proof.
  intros Hs Hr text Ht Hsub.
  assert (Hhttp : exists rest, originalUrl = "http" ++ rest).
  { unfold bad_scheme in Hs. apply andb_false_iff in Hs.
    destruct Hs as [Hs|Hs]; apply negb_false_iff in Hs;
      apply prefix_app in Hs as (post & ->); eexists; reflexivity. }
  destruct Hhttp as (rest & ->).
  assert (Hinc : includes text "http" = true).
  { apply includes_Substring. destruct Hsub as (pre & post & ->).
    exists pre, (rest ++ post). reflexivity. }
  cbn [In] in Hr.
  destruct Hr as [<-|[<-|[<-|[<-|[<-|[]]]]]];
    cbn [Response.body Response.headers preflight_response missing_token
         invalid_token invalid_url unauthorized json_error map snd
         cors_headers In] in Ht;
    repeat match goal with
    | H : _ \/ _ |- _ => destruct H
    | H : Some _ = Some _ |- _ => injection H as <-
    | H : None = Some _ |- _ => discriminate H
    | H : False |- _ => contradiction
    end;
    subst; vm_compute in Hinc; discriminate.
Qed.

(* ================================================================== *)
(** * The claims *)
(* ================================================================== *)

(** C1 (the code departs from it).  The token of "http://" decodes to a
    string that begins with http:// and does not parse as a URL.  Both
    variants answer 500 {"error":"Server error", ...}, not 400
    {"error":"Invalid URL"}. *)
Theorem C1_unparseable_url_answers_500 :
  let originalUrl := "http://" in
  let request := Sample.request_for "GET" "aHR0cDovLw==" [] in
  let json := [("Content-Type", "application/json")] in
  atob "aHR0cDovLw==" = Some originalUrl
  /\ startsWith originalUrl "http://" = true
  /\ Sample.parse_URL originalUrl = Throw Sample.invalid_URL
  /\ CloudflareWorker.handleRequest (Sample.runtime Sample.origin_plain) request
     = ([CallAtob "aHR0cDovLw=="],
        Ok (Response.mk 500 json
              (Some (jsontext
                 "{'error':'Server error','message':'Invalid URL: http://'}"))))
  /\ Allowlisted.handleRequest (Sample.runtime Sample.origin_plain)
       Allowlisted.allowedDomains request
     = ([CallAtob "aHR0cDovLw=="],
        Ok (Response.mk 500 json
              (Some (jsontext
                 "{'error':'Server error','message':'Invalid URL string.'}")))).
Proof.
  repeat split; reflexivity.
Qed.

(** C2 (as stated, fails on the allowlisted variant).  That variant ships
    with a non-empty list; the token of https://example.com/v.mp4 passes
    scheme validation and parsing, and the answer is 403
    {"error":"Unauthorized domain"} without any fetch. *)
Lemma C2_shipped_allowlist_rejects :
  let originalUrl := "https://example.com/v.mp4" in
  let request := Sample.request_for "GET" (encode_token originalUrl) [] in
  Allowlisted.allowedDomains <> []
  /\ atob (encode_token originalUrl) = Some originalUrl
  /\ bad_scheme originalUrl = false
  /\ Sample.parse_URL originalUrl = Ok (URL.mk "example.com" [])
  /\ Allowlisted.handleRequest (Sample.runtime Sample.origin_plain)
       Allowlisted.allowedDomains request
     = ([CallAtob (encode_token originalUrl)],
        Ok (Response.mk 403 [("Content-Type", "application/json")]
              (Some (jsontext "{'error':'Unauthorized domain'}")))).
Proof.
  repeat split; try reflexivity. discriminate.
Qed.

(** C2 (amended).  Where there is no allowlist, the handler never answers
    403 {"error":"Unauthorized domain"}, and every decoded URL that passes
    scheme validation and that the [Request] constructor accepts is fetched,
    whatever its hostname.  This holds for [src/cloudflare_worder.js], whose
    allowlist block is commented out, and for the allowlisted variant run
    with an empty list (there the URL must also parse). *)
Theorem C2_no_allowlist_allows_all :
  (forall rt request,
      result (CloudflareWorker.handleRequest rt request) <> Ok unauthorized
      /\ result (Allowlisted.handleRequest rt [] request) <> Ok unauthorized)
  /\
  (forall rt request token originalUrl,
      Decodes rt request token originalUrl ->
      bad_scheme originalUrl = false ->
      Request_check rt originalUrl (Request.method request) = None ->
      let calls :=
        [CallAtob token; CallFetch (videoRequest_of rt request originalUrl)] in
      trace (CloudflareWorker.handleRequest rt request) = calls
      /\ (forall urlObj,
             URL_new rt originalUrl = Ok urlObj ->
             trace (Allowlisted.handleRequest rt [] request) = calls)).
Proof.
  split.
  - intros rt request. split.
    + destruct (worker_runs rt request) as (calls & r & -> & HR).
      cbn [result snd]. intros H. injection H as H.
      revert H. eapply Run_without_allowlist; [|eassumption]. now left.
    + destruct (allowlisted_runs rt [] request) as (calls & r & -> & HR).
      cbn [result snd]. intros H. injection H as H.
      revert H. eapply Run_without_allowlist; [|eassumption]. now right.
  - intros rt request token originalUrl Hd Hs Hc calls.
    destruct (Relay_total rt request originalUrl) as (cs & r & HR).
    pose proof (Relay_fetches _ _ _ _ _ Hc HR) as ->.
    split.
    + assert (Hrun : Run rt None request calls r).
      { apply run_relay with originalUrl; auto. exact I. }
      now rewrite (worker_run_complete _ _ _ _ Hrun).
    + intros urlObj Hp.
      assert (Hrun : Run rt (Some []) request calls r).
      { apply run_relay with originalUrl; auto. exists urlObj. auto. }
      now rewrite (allowlisted_run_complete _ _ _ _ _ Hrun).
Qed.

Lemma C2_no_allowlist_witness :
  let originalUrl := "https://example.com/v.mp4" in
  let request := Sample.request_for "GET" (encode_token originalUrl) [] in
  trace (CloudflareWorker.handleRequest (Sample.runtime Sample.origin_plain)
           request)
  = [CallAtob (encode_token originalUrl);
     CallFetch (videoRequest_of (Sample.runtime Sample.origin_plain) request originalUrl)]
  /\ result (CloudflareWorker.handleRequest
               (Sample.runtime Sample.origin_plain) request)
     <> Ok unauthorized.
Proof.
  intros originalUrl request. split.
  - refine (proj1 (proj2 C2_no_allowlist_allows_all
                     (Sample.runtime Sample.origin_plain) request
                     (encode_token originalUrl) originalUrl _ _ _)).
    + split; [discriminate|].
      exists (URL.mk "proxy.example" [("vid", encode_token originalUrl)]).
      repeat split; try reflexivity. discriminate.
    + reflexivity.
    + reflexivity.
  - exact (proj1 (proj1 C2_no_allowlist_allows_all
                    (Sample.runtime Sample.origin_plain) request)).
Defined.

(** C3 (the code departs from it).  The token of a URL whose port is out of
    range: the [Request] constructor rejects the URL with a message that
    names it, and the 500 answer carries that message, so the decoded origin
    URL is part of the body sent to the client. *)
Theorem C3_server_error_echoes_origin_url :
  let originalUrl := "https://cdn.example.com:99999/v.mp4" in
  let request := Sample.request_for "GET" (encode_token originalUrl) [] in
  let body :=
    jsontext
      "{'error':'Server error','message':'Invalid URL: https://cdn.example.com:99999/v.mp4'}" in
  atob (encode_token originalUrl) = Some originalUrl
  /\ CloudflareWorker.handleRequest (Sample.runtime Sample.origin_plain) request
     = ([CallAtob (encode_token originalUrl)],
        Ok (Response.mk 500 [("Content-Type", "application/json")] (Some body)))
  /\ Substring originalUrl body.
Proof.
  repeat split; try reflexivity.
  apply includes_Substring. reflexivity.
Qed.

(** C4.  With a non-empty allowlist, a request whose token decodes to an
    http(s) string that the platform parses is answered 403
    {"error":"Unauthorized domain"} exactly when no allowlist entry is a
    substring of the parsed hostname.  Containment anywhere in the hostname
    counts: under the allowlist ["example.com"] the URL
    https://cdn.example.com.evil.org/v.mp4 is let through and fetched. *)
Theorem C4_allowlist_is_substring_match
    rt allowedDomains request token originalUrl urlObj :
  Decodes rt request token originalUrl ->
  bad_scheme originalUrl = false ->
  URL_new rt originalUrl = Ok urlObj ->
  allowedDomains <> [] ->
  (result (Allowlisted.handleRequest rt allowedDomains request)
   = Ok (Response.mk 403 [("Content-Type", "application/json")]
           (Some (jsontext "{'error':'Unauthorized domain'}")))
   <->
   forall domain,
     In domain allowedDomains -> ~ Substring domain (URL.hostname urlObj))
  /\
  (Substring "example.com" "cdn.example.com.evil.org"
   /\ exists r,
       Allowlisted.handleRequest (Sample.runtime Sample.origin_plain)
         ["example.com"]
         (Sample.request_for "GET"
            (encode_token "https://cdn.example.com.evil.org/v.mp4") [])
       = ([ CallAtob (encode_token "https://cdn.example.com.evil.org/v.mp4");
            CallFetch
              (Request.mk "https://cdn.example.com.evil.org/v.mp4" "GET"
                 [ ("User-Agent", user_agent); ("Accept", "*/*");
                   ("Accept-Language", "en-US,en;q=0.9"); ("Range", "") ]
                 None) ],
          Ok r)
       /\ Response.status r = 200%Z).
Proof.
  intros Hd Hs Hp Hne. split.
  - rewrite <- no_entry_matches.
    change (Response.mk 403 [("Content-Type", "application/json")]
              (Some (jsontext "{'error':'Unauthorized domain'}")))
      with unauthorized.
    destruct (existsb (fun domain => includes (URL.hostname urlObj) domain)
                      allowedDomains) eqn:Hx.
    + destruct (Relay_total rt request originalUrl) as (calls & r & HR).
      assert (Hrun : Run rt (Some allowedDomains) request
                       (CallAtob token :: calls) r).
      { apply run_relay with originalUrl; auto. exists urlObj. auto. }
      rewrite (allowlisted_run_complete _ _ _ _ _ Hrun). cbn [result snd].
      split; [|discriminate].
      intros H. injection H as H.
      now apply Relay_not_unauthorized in HR.
    + assert (Hrun : Run rt (Some allowedDomains) request
                       [CallAtob token] unauthorized).
      { now apply run_unauthorized with originalUrl allowedDomains urlObj. }
      rewrite (allowlisted_run_complete _ _ _ _ _ Hrun). cbn [result snd].
      split; auto.
  - split.
    + apply includes_Substring. reflexivity.
    + eexists. split; [vm_compute; reflexivity|reflexivity].
Qed.

Lemma C4_allowlist_witness :
  result (Allowlisted.handleRequest (Sample.runtime Sample.origin_plain)
            Allowlisted.allowedDomains
            (Sample.request_for "GET" "aHR0cHM6Ly9leGFtcGxlLmNvbS92Lm1wNA==" []))
  = Ok unauthorized
  <->
  forall domain,
    In domain Allowlisted.allowedDomains -> ~ Substring domain "example.com".
Proof.
  refine (proj1 (C4_allowlist_is_substring_match
                   (Sample.runtime Sample.origin_plain)
                   Allowlisted.allowedDomains
                   (Sample.request_for "GET"
                      "aHR0cHM6Ly9leGFtcGxlLmNvbS92Lm1wNA==" [])
                   "aHR0cHM6Ly9leGFtcGxlLmNvbS92Lm1wNA=="
                   "https://example.com/v.mp4"
                   (URL.mk "example.com" []) _ _ _ _)).
  - split; [discriminate|].
    exists (URL.mk "proxy.example"
              [("vid", "aHR0cHM6Ly9leGFtcGxlLmNvbS92Lm1wNA==")]).
    repeat split; try reflexivity. discriminate.
  - reflexivity.
  - reflexivity.
  - discriminate.
Defined.

(** C5 (as stated, fails).  A POST request whose Accept header is present
    and empty reaches the builder: the outbound request is a POST, neither
    GET nor HEAD, and its Accept is '*/*' although the incoming Accept is
    the empty string. *)
Lemma C5_post_and_empty_accept :
  let originalUrl := "https://example.com/v.mp4" in
  let request :=
    Sample.request_for "POST" (encode_token originalUrl) [("Accept", "")] in
  exists videoRequest,
    CloudflareWorker.handleRequest (Sample.runtime Sample.origin_plain) request
    = ([CallAtob (encode_token originalUrl); CallFetch videoRequest],
       Ok (relayed (Response.mk 200 [("Content-Type", "video/webm")]
                      (Some "<bytes>"))))
    /\ Request.method request <> "OPTIONS"
    /\ Request.method videoRequest = "POST"
    /\ Request.method videoRequest <> "GET"
    /\ Request.method videoRequest <> "HEAD"
    /\ Headers_get (Request.headers request) "Accept" = Some ""
    /\ Headers_get (Request.headers videoRequest) "Accept" = Some "*/*".
Proof.
  eexists. split; [vm_compute; reflexivity|].
  repeat split; try reflexivity; discriminate.
Qed.

(** C5 (amended).  Every request the handler sends to the origin has the
    method of the incoming request (so it is a GET or a HEAD exactly when
    the incoming request is), the platform's serialisation of the decoded
    URL as its URL, no body, and exactly four headers: the fixed
    User-Agent; Accept, equal to the incoming Accept header when that is
    present and not empty, '*/*' otherwise; the fixed Accept-Language;
    Range, equal to the incoming Range header, empty when there is none.
    Both variants. *)
Theorem C5_outbound_request rt allowedDomains request videoRequest :
  In (CallFetch videoRequest)
     (trace (CloudflareWorker.handleRequest rt request))
  \/ In (CallFetch videoRequest)
        (trace (Allowlisted.handleRequest rt allowedDomains request)) ->
  let incoming := Request.headers request in
  let accept :=
    match Headers_get incoming "Accept" with
    | Some a => if a =? "" then "*/*" else a
    | None => "*/*"
    end in
  let range :=
    match Headers_get incoming "Range" with
    | Some r => r
    | None => ""
    end in
  Request.method request <> "OPTIONS"
  /\ Request.method videoRequest = Request.method request
  /\ Request.body videoRequest = None
  /\ Request.headers videoRequest
     = [ ("User-Agent",
          "Mozilla/5.0 (Windows NT 10.0; Win64; x64) AppleWebKit/537.36");
         ("Accept", accept);
         ("Accept-Language", "en-US,en;q=0.9");
         ("Range", range) ]
  /\ exists token originalUrl,
       Decodes rt request token originalUrl
       /\ bad_scheme originalUrl = false
       /\ Request.url videoRequest = Request_href rt originalUrl.
Proof.
  intros Hin incoming accept range.
  assert (H : exists policy calls r,
             Run rt policy request calls r /\ In (CallFetch videoRequest) calls).
  { destruct Hin as [Hin|Hin].
    - destruct (worker_runs rt request) as (calls & r & Heq & HR).
      rewrite Heq in Hin. eauto.
    - destruct (allowlisted_runs rt allowedDomains request)
        as (calls & r & Heq & HR).
      rewrite Heq in Hin. eauto. }
  destruct H as (policy & calls & r & HR & Hc).
  destruct (Run_fetch _ _ _ _ _ _ HR Hc)
    as (token & originalUrl & Hd & Hs & _ & _ & _ & ->).
  split; [apply Hd|].
  cbn [videoRequest_of Request.method Request.body Request.headers Request.url].
  repeat split.
  - unfold videoRequest_headers, Headers_new. fold incoming.
    now rewrite or_else_empty.
  - exists token, originalUrl. auto.
Qed.

Lemma C5_outbound_request_witness :
  let originalUrl := "https://storage.googleapis.com/v.mp4" in
  let request :=
    Sample.request_for "GET" (encode_token originalUrl)
      [("Range", "bytes=0-1023"); ("Cookie", "session=1")] in
  let videoRequest :=
    Request.mk originalUrl "GET"
      [ ("User-Agent",
         "Mozilla/5.0 (Windows NT 10.0; Win64; x64) AppleWebKit/537.36");
        ("Accept", "*/*");
        ("Accept-Language", "en-US,en;q=0.9");
        ("Range", "bytes=0-1023") ]
      None in
  In (CallFetch videoRequest)
     (trace (Allowlisted.handleRequest (Sample.runtime Sample.origin_partial)
               Allowlisted.allowedDomains request))
  /\ Request.method videoRequest = Request.method request
  /\ Headers_get (Request.headers videoRequest) "Cookie" = None.
Proof.
  intros originalUrl request videoRequest.
  assert (Hin : In (CallFetch videoRequest)
                   (trace (Allowlisted.handleRequest
                             (Sample.runtime Sample.origin_partial)
                             Allowlisted.allowedDomains request))).
  { vm_compute. right. left. reflexivity. }
  split; [exact Hin|].
  split.
  - exact (proj1 (proj2
             (C5_outbound_request (Sample.runtime Sample.origin_partial)
                Allowlisted.allowedDomains request videoRequest
                (or_intror Hin)))).
  - reflexivity.
Defined.

(** C6 (as stated, fails).  An origin that answers with status 999: the
    [Response] constructor rejects that status, the outer catch takes over,
    and the client receives 500, not 999. *)
Lemma C6_status_999_becomes_500 :
  let originalUrl := "https://example.com/v.mp4" in
  let request := Sample.request_for "GET" (encode_token originalUrl) [] in
  let videoRequest := videoRequest_of (Sample.runtime Sample.origin_999) request originalUrl in
  fetch (Sample.runtime Sample.origin_999) videoRequest
  = Ok (Response.mk 999 [("Content-Type", "text/html")] (Some "denied"))
  /\ exists r,
       CloudflareWorker.handleRequest (Sample.runtime Sample.origin_999) request
       = ([CallAtob (encode_token originalUrl); CallFetch videoRequest], Ok r)
       /\ Response.status r = 500%Z
       /\ Response.status r <> 999%Z.
Proof.
  split; [reflexivity|].
  eexists. split; [vm_compute; reflexivity|].
  split; [reflexivity|discriminate].
Qed.

(** C6 (amended).  When the origin's status is one a [Response] can be
    constructed with (200 to 599), the proxy response has exactly that
    status and the origin's body; its Content-Range is the origin's
    Content-Range (same value when supplied, absent when not); and it has a
    Content-Length if and only if the origin supplied one, with the
    origin's value.  Both variants. *)
Theorem C6_relay_preserves_status_and_range
    rt allowedDomains request videoRequest videoResponse (m : M Response.t) :
  m = CloudflareWorker.handleRequest rt request
  \/ m = Allowlisted.handleRequest rt allowedDomains request ->
  In (CallFetch videoRequest) (trace m) ->
  fetch rt videoRequest = Ok videoResponse ->
  (200 <= Response.status videoResponse <= 599)%Z ->
  exists r,
    result m = Ok r
    /\ Response.status r = Response.status videoResponse
    /\ Response.body r = Response.body videoResponse
    /\ Headers_get (Response.headers r) "Content-Range"
       = Headers_get (Response.headers videoResponse) "Content-Range"
    /\ Headers_has (Response.headers r) "Content-Length"
       = Headers_has (Response.headers videoResponse) "Content-Length"
    /\ Headers_get (Response.headers r) "Content-Length"
       = Headers_get (Response.headers videoResponse) "Content-Length".
Proof.
  intros Hm Hin Hf Hst.
  assert (H : exists policy calls r,
             m = (calls, Ok r) /\ Run rt policy request calls r).
  { destruct Hm as [->| ->].
    - destruct (worker_runs rt request) as (calls & r & Heq & HR). eauto.
    - destruct (allowlisted_runs rt allowedDomains request)
        as (calls & r & Heq & HR). eauto. }
  destruct H as (policy & calls & r & -> & HR).
  cbn [trace fst] in Hin.
  destruct (Run_fetch _ _ _ _ _ _ HR Hin)
    as (token & originalUrl & _ & _ & _ & Hrelay & _ & ->).
  exists r. split; [reflexivity|].
  rewrite (Relay_of_fetched _ _ _ _ _ Hrelay Hf Hst).
  destruct (relayed_length_and_range videoResponse) as (Hcr & Hcl & Hhl & _).
  cbn [relayed Response.status Response.body Response.headers].
  auto.
Qed.

Lemma C6_relay_witness :
  let request :=
    Sample.request_for "GET"
      "aHR0cHM6Ly9zdG9yYWdlLmdvb2dsZWFwaXMuY29tL3YubXA0"
      [("Range", "bytes=0-1023")] in
  exists r,
    result (Allowlisted.handleRequest (Sample.runtime Sample.origin_partial)
              Allowlisted.allowedDomains request) = Ok r
    /\ Response.status r = 206%Z
    /\ Headers_get (Response.headers r) "Content-Range"
       = Some "bytes 0-99/1000"
    /\ Headers_get (Response.headers r) "Content-Length" = Some "100".
Proof.
  intros request.
  destruct (C6_relay_preserves_status_and_range
              (Sample.runtime Sample.origin_partial)
              Allowlisted.allowedDomains request
              (videoRequest_of (Sample.runtime Sample.origin_partial) request "https://storage.googleapis.com/v.mp4")
              (Response.mk 206
                 [ ("content-type", "video/mp4");
                   ("content-length", "100");
                   ("content-range", "bytes 0-99/1000") ]
                 (Some "<100 bytes>"))
              (Allowlisted.handleRequest (Sample.runtime Sample.origin_partial)
                 Allowlisted.allowedDomains request))
    as (r & Hr & Hst & _ & Hcr & _ & Hcl).
  - right. reflexivity.
  - vm_compute. right. left. reflexivity.
  - reflexivity.
  - cbn. lia.
  - exists r. repeat split; assumption.
Defined.

(** C7.  A request whose method is OPTIONS is answered at once: status 200,
    no body, exactly the three CORS headers; the handler calls neither
    [atob] nor [fetch] (its list of calls is empty).  Both variants. *)
Theorem C7_preflight_short_circuit rt allowedDomains request :
  Request.method request = "OPTIONS" ->
  let answer :=
    Response.mk 200
      [ ("Access-Control-Allow-Origin", "*");
        ("Access-Control-Allow-Methods", "GET, HEAD, OPTIONS");
        ("Access-Control-Allow-Headers", "Range, Content-Type") ]
      None in
  CloudflareWorker.handleRequest rt request = ([], Ok answer)
  /\ Allowlisted.handleRequest rt allowedDomains request = ([], Ok answer).
Proof.
  intros Hm answer. split.
  - apply worker_run_complete. now constructor.
  - apply allowlisted_run_complete. now constructor.
Qed.

Lemma C7_preflight_witness :
  let request := Sample.request_for "OPTIONS" "aHR0cDovLw==" [] in
  CloudflareWorker.handleRequest (Sample.runtime Sample.origin_down) request
  = ([], Ok preflight_response)
  /\ Allowlisted.handleRequest (Sample.runtime Sample.origin_down)
       Allowlisted.allowedDomains request
     = ([], Ok preflight_response).
Proof.
  apply (C7_preflight_short_circuit (Sample.runtime Sample.origin_down)
           Allowlisted.allowedDomains
           (Sample.request_for "OPTIONS" "aHR0cDovLw==" [])).
  reflexivity.
Defined.

(** C8.  For a request that is not OPTIONS and whose URL the platform
    parses: when [vid] is absent the answer is 400 with body
    {"error":"Missing video ID"}; when [vid] is present and [atob] rejects
    it the answer is 400 with body {"error":"Invalid video ID"} (so never a
    500).  Both variants. *)
Theorem C8_token_errors rt allowedDomains request url :
  Request.method request <> "OPTIONS" ->
  URL_new rt (Request.url request) = Ok url ->
  let vid := searchParams_get (URL.searchParams url) "vid" in
  let json := [("Content-Type", "application/json")] in
  (vid = None ->
   let answer :=
     Response.mk 400 json (Some (jsontext "{'error':'Missing video ID'}")) in
   result (CloudflareWorker.handleRequest rt request) = Ok answer
   /\ result (Allowlisted.handleRequest rt allowedDomains request) = Ok answer)
  /\
  (forall token, vid = Some token -> atob token = None ->
   let answer :=
     Response.mk 400 json (Some (jsontext "{'error':'Invalid video ID'}")) in
   result (CloudflareWorker.handleRequest rt request) = Ok answer
   /\ result (Allowlisted.handleRequest rt allowedDomains request) = Ok answer).
Proof.
  intros Hm Hu vid json. split.
  - intros Hv answer.
    assert (H : forall policy, Run rt policy request [] missing_token).
    { intros policy. apply run_missing_token with url; auto.
      fold vid. now rewrite Hv. }
    split.
    + now rewrite (worker_run_complete _ _ _ _ (H None)).
    + now rewrite (allowlisted_run_complete _ _ _ _ _ (H (Some allowedDomains))).
  - intros token Hv Ha answer.
    assert (Hne : token <> "").
    { intros ->. rewrite atob_empty in Ha. discriminate. }
    assert (H : forall policy, Run rt policy request [CallAtob token] invalid_token).
    { intros policy. now apply run_invalid_token with url. }
    split.
    + now rewrite (worker_run_complete _ _ _ _ (H None)).
    + now rewrite (allowlisted_run_complete _ _ _ _ _ (H (Some allowedDomains))).
Qed.

Lemma C8_token_errors_witness :
  result (CloudflareWorker.handleRequest (Sample.runtime Sample.origin_down)
            (Request.mk "https://proxy.example/" "GET" [] None))
  = Ok missing_token
  /\ result (Allowlisted.handleRequest (Sample.runtime Sample.origin_down)
               Allowlisted.allowedDomains
               (Sample.request_for "HEAD" "not-base64!" []))
     = Ok invalid_token.
Proof.
  split.
  - refine (proj1 (proj1 (C8_token_errors (Sample.runtime Sample.origin_down)
                            Allowlisted.allowedDomains
                            (Request.mk "https://proxy.example/" "GET" [] None)
                            (URL.mk "proxy.example" []) _ _) _)).
    + discriminate.
    + reflexivity.
    + reflexivity.
  - refine (proj2 (proj2 (C8_token_errors (Sample.runtime Sample.origin_down)
                            Allowlisted.allowedDomains
                            (Sample.request_for "HEAD" "not-base64!" [])
                            (URL.mk "proxy.example" [("vid", "not-base64!")])
                            _ _) "not-base64!" _ _)).
    + discriminate.
    + reflexivity.
    + reflexivity.
    + reflexivity.
Defined.

(** C9 (as stated, fails).  A URL with a character outside ASCII (here
    U+00E9) passes scheme validation and parses, but decoding its token
    gives the two UTF-8 bytes as two characters, not the original string. *)
Lemma C9_non_ascii_url_not_restored :
  let url := "https://example.com/caf" ++ String (ascii_of_nat 233) ".mp4" in
  bad_scheme url = false
  /\ Sample.parse_URL url = Ok (URL.mk "example.com" [])
  /\ atob (encode_token url)
     = Some ("https://example.com/caf"
             ++ String (ascii_of_nat 195) (String (ascii_of_nat 169) ".mp4"))
  /\ atob (encode_token url) <> Some url.
Proof.
  repeat split; try reflexivity. vm_compute. discriminate.
Qed.

(** C9 (amended).  For every URL string made of ASCII characters only,
    decoding its token (the standard Base64 of its UTF-8 bytes) gives back
    the URL exactly, both through [atob] and through the handler's decoding
    step.  (In general the decoder returns the UTF-8 bytes of the URL, one
    character per byte.) *)
Theorem C9_ascii_token_round_trip (url : string) :
  is_ascii url = true ->
  atob (encode_token url) = Some url
  /\ decode (Some (encode_token url))
     = ([CallAtob (encode_token url)], Ok (Some url)).
Proof.
  intros H. unfold encode_token.
  rewrite decode_eq, atob_base64_encode, utf8_encode_ascii by assumption.
  split; reflexivity.
Qed.

Lemma C9_ascii_token_round_trip_witness :
  is_ascii "https://example.com/v.mp4" = true
  /\ encode_token "https://example.com/v.mp4"
     = "aHR0cHM6Ly9leGFtcGxlLmNvbS92Lm1wNA=="
  /\ atob (encode_token "https://example.com/v.mp4")
     = Some "https://example.com/v.mp4".
Proof.
  split; [reflexivity|]. split; [reflexivity|].
  apply (C9_ascii_token_round_trip "https://example.com/v.mp4").
  reflexivity.
Defined.

(** C10.  The answer to a request that is not OPTIONS is either the relay
    of the origin answer the handler fetched or one of the five error
    answers (400 missing token, 400 invalid token, 400 invalid URL, 403
    unauthorized domain, 500 server error with the thrown error's message),
    and never anything else; OPTIONS alone gets the preflight answer.  Each
    error answer carries exactly one header, Content-Type:
    application/json, and none of the three CORS headers.  Both
    variants. *)
Theorem C10_error_responses_carry_one_header rt allowedDomains request :
  let json := [("Content-Type", "application/json")] in
  let error_answer (r : Response.t) :=
    (r = Response.mk 400 json
           (Some (jsontext "{'error':'Missing video ID'}"))
     \/ r = Response.mk 400 json
              (Some (jsontext "{'error':'Invalid video ID'}"))
     \/ r = Response.mk 400 json (Some (jsontext "{'error':'Invalid URL'}"))
     \/ r = Response.mk 403 json
              (Some (jsontext "{'error':'Unauthorized domain'}"))
     \/ exists error,
          r = Response.mk 500 json
                (Some (JSON_stringify
                         [("error", "Server error");
                          ("message", message error)])))
    /\ Response.headers r = [("Content-Type", "application/json")]
    /\ Headers_has (Response.headers r) "Access-Control-Allow-Origin" = false
    /\ Headers_has (Response.headers r) "Access-Control-Allow-Methods" = false
    /\ Headers_has (Response.headers r) "Access-Control-Allow-Headers" = false in
  let classified (m : M Response.t) :=
    exists r,
      result m = Ok r
      /\ ((Request.method request = "OPTIONS" /\ r = preflight_response)
          \/ (Request.method request <> "OPTIONS"
              /\ exists videoRequest videoResponse,
                   In (CallFetch videoRequest) (trace m)
                   /\ fetch rt videoRequest = Ok videoResponse
                   /\ (200 <= Response.status videoResponse <= 599)%Z
                   /\ r = relayed videoResponse)
          \/ (Request.method request <> "OPTIONS" /\ error_answer r)) in
  classified (CloudflareWorker.handleRequest rt request)
  /\ classified (Allowlisted.handleRequest rt allowedDomains request).
Proof.
  intros json error_answer classified.
  assert (Hc : forall policy m calls r,
             m = (calls, Ok r) -> Run rt policy request calls r -> classified m).
  { intros policy m calls r -> HR. exists r. split; [reflexivity|].
    apply Run_answer in HR as [H|[H|(Hm & He)]]; auto.
    right; right. split; [assumption|]. unfold error_answer.
    destruct He as [->|[->|[->|[->|(e & ->)]]]];
      (split;
       [first [ now left
              | right; now left
              | do 2 right; now left
              | do 3 right; now left
              | do 4 right; exists e; reflexivity ]
       | repeat split; reflexivity ]). }
  split.
  - destruct (worker_runs rt request) as (calls & r & Heq & HR). eauto.
  - destruct (allowlisted_runs rt allowedDomains request)
      as (calls & r & Heq & HR). eauto.
Qed.

(* ================================================================== *)
(** * Further properties of the handler *)
(* ================================================================== *)

(** ** Shared facts *)

(** Either variant runs as [Run] says, under some policy. *)
Lemma either_runs rt allowedDomains request (m : M Response.t) :
  m = CloudflareWorker.handleRequest rt request
  \/ m = Allowlisted.handleRequest rt allowedDomains request ->
  exists policy calls r,
    m = (calls, Ok r) /\ Run rt policy request calls r.
Proof.
  intros [->| ->].
  - destruct (worker_runs rt request) as (calls & r & Heq & HR). eauto.
  - destruct (allowlisted_runs rt allowedDomains request)
      as (calls & r & Heq & HR). eauto.
Qed.

(** The answer to a request whose fetch resolved with a constructible
    status is the relay of what the origin sent. *)
Lemma fetched_answer_is_relayed
    rt allowedDomains request videoRequest videoResponse (m : M Response.t) :
  m = CloudflareWorker.handleRequest rt request
  \/ m = Allowlisted.handleRequest rt allowedDomains request ->
  In (CallFetch videoRequest) (trace m) ->
  fetch rt videoRequest = Ok videoResponse ->
  constructible (Response.status videoResponse) ->
  result m = Ok (relayed videoResponse).
Proof.
  intros Hm Hin Hf Hst.
  destruct (either_runs _ _ _ _ Hm) as (policy & calls & r & -> & HR).
  cbn [trace fst] in Hin.
  destruct (Run_fetch _ _ _ _ _ _ HR Hin)
    as (token & originalUrl & _ & _ & _ & Hrelay & _ & ->).
  cbn [result snd].
  now rewrite (Relay_of_fetched _ _ _ _ _ Hrelay Hf Hst).
Qed.

Lemma Run_status rt policy request calls r :
  Run rt policy request calls r -> constructible (Response.status r).
Proof.
  intros H. inversion H; subst; try (cbn; unfold constructible; lia).
  match goal with HR : Relay _ _ _ _ _ |- _ =>
    apply Relay_fetched in HR
      as [(st & fs & Hst & ->)|(o & _ & _ & Hc & ->)]
  end.
  - cbn. unfold constructible. lia.
  - exact Hc.
Qed.

(** The calls of a run: none, one decode, or one decode and one fetch. *)
Lemma Run_calls rt policy request calls r :
  Run rt policy request calls r ->
  calls = []
  \/ (exists token, calls = [CallAtob token])
  \/ (exists token originalUrl,
        atob token = Some originalUrl
        /\ bad_scheme originalUrl = false
        /\ calls = [CallAtob token;
                    CallFetch (videoRequest_of rt request originalUrl)]).
Proof.
  intros H. inversion H; subst; eauto.
  match goal with HR : Relay _ _ _ _ _ |- _ => inversion HR; subst end;
    eauto;
    right; right; exists token, originalUrl;
    match goal with Hd : Decodes _ _ _ _ |- _ =>
      destruct Hd as (_ & url & _ & _ & _ & Ha)
    end; auto.
Qed.

(** X1.  The promise each listener hands to [respondWith] always resolves:
    whatever the platform calls throw, [handleRequest] returns a response,
    and its status is one a [Response] can carry (200 to 599). *)
Theorem X1_listener_always_responds rt event :
  (exists r,
      result (worker_listener rt event) = Ok r
      /\ (200 <= Response.status r <= 599)%Z)
  /\ (exists r,
        result (allowlisted_listener rt event) = Ok r
        /\ (200 <= Response.status r <= 599)%Z).
Proof.
  unfold worker_listener, allowlisted_listener. split.
  - destruct (worker_runs rt (FetchEvent.request event))
      as (calls & r & -> & HR).
    exists r. split; [reflexivity|]. exact (Run_status _ _ _ _ _ HR).
  - destruct (allowlisted_runs rt Allowlisted.allowedDomains
                (FetchEvent.request event)) as (calls & r & -> & HR).
    exists r. split; [reflexivity|]. exact (Run_status _ _ _ _ _ HR).
Qed.

(** X2.  When the outbound [fetch] rejects, the handler answers 500 with
    body {"error":"Server error","message":<the error's message>} after
    exactly one decode and one fetch: nothing is retried.  Both variants
    (the allowlisted one when the URL passes its allowlist stage). *)
Theorem X2_fetch_failure_answers_500_without_retry
    rt allowedDomains request token originalUrl e :
  Decodes rt request token originalUrl ->
  bad_scheme originalUrl = false ->
  Request_check rt originalUrl (Request.method request) = None ->
  fetch rt (videoRequest_of rt request originalUrl) = Throw e ->
  let outcome : M Response.t :=
    ([CallAtob token; CallFetch (videoRequest_of rt request originalUrl)],
     Ok (Response.mk 500 [("Content-Type", "application/json")]
           (Some (JSON_stringify
                    [("error", "Server error"); ("message", message e)])))) in
  CloudflareWorker.handleRequest rt request = outcome
  /\ (Passes_allowlist rt (Some allowedDomains) originalUrl ->
      Allowlisted.handleRequest rt allowedDomains request = outcome).
Proof.
  intros Hd Hs Hc Hf outcome.
  assert (HR : Relay rt request originalUrl
                 [CallFetch (videoRequest_of rt request originalUrl)]
                 (server_error_response e)) by now constructor.
  split.
  - apply worker_run_complete.
    apply run_relay with originalUrl; auto. exact I.
  - intros Hp. apply allowlisted_run_complete.
    now apply run_relay with originalUrl.
Qed.

Lemma X2_fetch_failure_witness :
  let originalUrl := "https://example.com/v.mp4" in
  let request := Sample.request_for "GET" (encode_token originalUrl) [] in
  CloudflareWorker.handleRequest (Sample.runtime Sample.origin_down) request
  = ([CallAtob (encode_token originalUrl);
      CallFetch (videoRequest_of (Sample.runtime Sample.origin_down) request originalUrl)],
     Ok (Response.mk 500 [("Content-Type", "application/json")]
           (Some (jsontext
              "{'error':'Server error','message':'Network connection lost.'}")))).
Proof.
  intros originalUrl request.
  refine (proj1 (X2_fetch_failure_answers_500_without_retry
                   (Sample.runtime Sample.origin_down) [] request
                   (encode_token originalUrl) originalUrl
                   (mkError "TypeError" "Network connection lost.")
                   _ _ _ _)).
  - split; [discriminate|].
    exists (URL.mk "proxy.example" [("vid", encode_token originalUrl)]).
    repeat split; try reflexivity. discriminate.
  - reflexivity.
  - reflexivity.
  - reflexivity.
Defined.

(** The six headers of the initialiser, as read back from a relayed
    answer. *)
Lemma relayed_fixed_headers (videoResponse : Response.t) :
  let vh := Response.headers videoResponse in
  let rh := responseHeaders_of videoResponse in
  Headers_get rh "Content-Type"
  = Some (or_else (Headers_get vh "Content-Type") "video/mp4")
  /\ Headers_get rh "Accept-Ranges"
     = Some (or_else (Headers_get vh "Accept-Ranges") "bytes")
  /\ Headers_get rh "Access-Control-Allow-Origin" = Some "*"
  /\ Headers_get rh "Access-Control-Allow-Methods" = Some "GET, HEAD, OPTIONS"
  /\ Headers_get rh "Access-Control-Allow-Headers" = Some "Range, Content-Type"
  /\ Headers_get rh "Cache-Control" = Some "public, max-age=3600".
Proof.
  intros vh rh. unfold rh. rewrite responseHeaders_shape. fold vh.
  generalize (or_else (Headers_get vh "Content-Type") "video/mp4") as ct.
  generalize (or_else (Headers_get vh "Accept-Ranges") "bytes") as ar.
  generalize (string_of (Headers_get vh "Content-Length")) as cl.
  generalize (string_of (Headers_get vh "Content-Range")) as cr.
  intros cr cl ar ct.
  destruct (Headers_has vh "Content-Length"),
           (Headers_has vh "Content-Range");
    repeat split; reflexivity.
Qed.

Lemma relayed_header_names (videoResponse : Response.t) :
  Forall (fun kv => In (fst kv) relayed_names)
         (responseHeaders_of videoResponse).
Proof.
  rewrite responseHeaders_shape.
  destruct (Headers_has (Response.headers videoResponse) "Content-Length"),
           (Headers_has (Response.headers videoResponse) "Content-Range");
    cbn [app];
    repeat (apply Forall_cons;
            [cbn [fst relayed_names In]; tauto|]);
    apply Forall_nil.
Qed.

(** X3.  On a relayed answer, Content-Type is the origin's Content-Type
    when the origin sent a non-empty one and video/mp4 otherwise, and
    Accept-Ranges is the origin's when non-empty and bytes otherwise.  Both
    variants. *)
Theorem X3_relay_defaults_content_type_and_accept_ranges
    rt allowedDomains request videoRequest videoResponse (m : M Response.t) :
  m = CloudflareWorker.handleRequest rt request
  \/ m = Allowlisted.handleRequest rt allowedDomains request ->
  In (CallFetch videoRequest) (trace m) ->
  fetch rt videoRequest = Ok videoResponse ->
  (200 <= Response.status videoResponse <= 599)%Z ->
  let origin := Response.headers videoResponse in
  exists r,
    result m = Ok r
    /\ Headers_get (Response.headers r) "Content-Type"
       = Some match Headers_get origin "Content-Type" with
              | Some v => if v =? "" then "video/mp4" else v
              | None => "video/mp4"
              end
    /\ Headers_get (Response.headers r) "Accept-Ranges"
       = Some match Headers_get origin "Accept-Ranges" with
              | Some v => if v =? "" then "bytes" else v
              | None => "bytes"
              end.
Proof.
  intros Hm Hin Hf Hst origin.
  exists (relayed videoResponse).
  split; [now apply (fetched_answer_is_relayed rt allowedDomains request
                       videoRequest)|].
  destruct (relayed_fixed_headers videoResponse) as (Hct & Har & _).
  cbn [relayed Response.headers]. split; assumption.
Qed.

Lemma X3_relay_defaults_witness :
  let request :=
    Sample.request_for "GET"
      "aHR0cHM6Ly9zdG9yYWdlLmdvb2dsZWFwaXMuY29tL3YubXA0" [] in
  exists r,
    result (CloudflareWorker.handleRequest
              (Sample.runtime Sample.origin_plain) request) = Ok r
    /\ Headers_get (Response.headers r) "Content-Type" = Some "video/webm"
    /\ Headers_get (Response.headers r) "Accept-Ranges" = Some "bytes".
Proof.
  intros request.
  destruct (X3_relay_defaults_content_type_and_accept_ranges
              (Sample.runtime Sample.origin_plain) [] request
              (videoRequest_of (Sample.runtime Sample.origin_plain) request "https://storage.googleapis.com/v.mp4")
              (Response.mk 200 [("Content-Type", "video/webm")]
                 (Some "<bytes>"))
              (CloudflareWorker.handleRequest
                 (Sample.runtime Sample.origin_plain) request))
    as (r & Hr & Hct & Har).
  - left. reflexivity.
  - vm_compute. right. left. reflexivity.
  - reflexivity.
  - cbn. lia.
  - exists r. repeat split; assumption.
Defined.

(** X4.  Every relayed answer carries Cache-Control: public, max-age=3600
    and the three CORS headers with their fixed values, whatever headers the
    origin sent (the origin's own Cache-Control is overridden).  Both
    variants. *)
Theorem X4_relay_fixes_cache_control_and_cors
    rt allowedDomains request videoRequest videoResponse (m : M Response.t) :
  m = CloudflareWorker.handleRequest rt request
  \/ m = Allowlisted.handleRequest rt allowedDomains request ->
  In (CallFetch videoRequest) (trace m) ->
  fetch rt videoRequest = Ok videoResponse ->
  (200 <= Response.status videoResponse <= 599)%Z ->
  exists r,
    result m = Ok r
    /\ Headers_get (Response.headers r) "Cache-Control"
       = Some "public, max-age=3600"
    /\ Headers_get (Response.headers r) "Access-Control-Allow-Origin"
       = Some "*"
    /\ Headers_get (Response.headers r) "Access-Control-Allow-Methods"
       = Some "GET, HEAD, OPTIONS"
    /\ Headers_get (Response.headers r) "Access-Control-Allow-Headers"
       = Some "Range, Content-Type".
Proof.
  intros Hm Hin Hf Hst.
  exists (relayed videoResponse).
  split; [now apply (fetched_answer_is_relayed rt allowedDomains request
                       videoRequest)|].
  destruct (relayed_fixed_headers videoResponse)
    as (_ & _ & Ho & Hme & Hh & Hcc).
  cbn [relayed Response.headers]. auto.
Qed.

(** An origin that sets its own caching and a cookie. *)
Lemma X4_relay_fixes_cache_control_witness :
  let request :=
    Sample.request_for "GET"
      "aHR0cHM6Ly9zdG9yYWdlLmdvb2dsZWFwaXMuY29tL3YubXA0" [] in
  let origin (_ : Request.t) : JsResult Response.t :=
    Ok (Response.mk 200
          [("Cache-Control", "no-store"); ("Set-Cookie", "id=1")]
          (Some "<bytes>")) in
  exists r,
    result (CloudflareWorker.handleRequest (Sample.runtime origin) request)
    = Ok r
    /\ Headers_get (Response.headers r) "Cache-Control"
       = Some "public, max-age=3600".
Proof.
  intros request origin.
  destruct (X4_relay_fixes_cache_control_and_cors
              (Sample.runtime origin) [] request
              (videoRequest_of (Sample.runtime origin) request "https://storage.googleapis.com/v.mp4")
              (Response.mk 200
                 [("Cache-Control", "no-store"); ("Set-Cookie", "id=1")]
                 (Some "<bytes>"))
              (CloudflareWorker.handleRequest (Sample.runtime origin) request))
    as (r & Hr & Hcc & _).
  - left. reflexivity.
  - vm_compute. right. left. reflexivity.
  - reflexivity.
  - cbn. lia.
  - exists r. split; assumption.
Defined.

(** X5.  A relayed answer carries no header beyond Content-Type,
    Accept-Ranges, the three CORS headers, Cache-Control, Content-Length
    and Content-Range: any other origin header (Set-Cookie, Location, ETag,
    ...) is absent from the answer.  Both variants. *)
Theorem X5_relay_forwards_no_other_header
    rt allowedDomains request videoRequest videoResponse (m : M Response.t) :
  m = CloudflareWorker.handleRequest rt request
  \/ m = Allowlisted.handleRequest rt allowedDomains request ->
  In (CallFetch videoRequest) (trace m) ->
  fetch rt videoRequest = Ok videoResponse ->
  (200 <= Response.status videoResponse <= 599)%Z ->
  exists r,
    result m = Ok r
    /\ (forall name value,
           In (name, value) (Response.headers r) -> In name relayed_names)
    /\ (forall name,
           (forall known, In known relayed_names -> lower known <> lower name) ->
           Headers_get (Response.headers r) name = None).
Proof.
  intros Hm Hin Hf Hst.
  exists (relayed videoResponse).
  split; [now apply (fetched_answer_is_relayed rt allowedDomains request
                       videoRequest)|].
  cbn [relayed Response.headers].
  pose proof (relayed_header_names videoResponse) as Hn.
  rewrite Forall_forall in Hn.
  split.
  - intros name value Hi. exact (Hn _ Hi).
  - intros name Hother. apply Headers_has_false_get.
    unfold Headers_has.
    destruct (existsb (name_matches name) (responseHeaders_of videoResponse))
      eqn:E; [|reflexivity].
    apply existsb_exists in E as (kv & Hi & Hmatch).
    unfold name_matches in Hmatch. apply String.eqb_eq in Hmatch.
    exfalso. exact (Hother _ (Hn _ Hi) Hmatch).
Qed.

Lemma X5_relay_forwards_no_other_header_witness :
  let request :=
    Sample.request_for "GET"
      "aHR0cHM6Ly9zdG9yYWdlLmdvb2dsZWFwaXMuY29tL3YubXA0" [] in
  let origin (_ : Request.t) : JsResult Response.t :=
    Ok (Response.mk 200
          [("Cache-Control", "no-store"); ("Set-Cookie", "id=1")]
          (Some "<bytes>")) in
  exists r,
    result (CloudflareWorker.handleRequest (Sample.runtime origin) request)
    = Ok r
    /\ Headers_get (Response.headers r) "Set-Cookie" = None.
Proof.
  intros request origin.
  destruct (X5_relay_forwards_no_other_header
              (Sample.runtime origin) [] request
              (videoRequest_of (Sample.runtime origin) request "https://storage.googleapis.com/v.mp4")
              (Response.mk 200
                 [("Cache-Control", "no-store"); ("Set-Cookie", "id=1")]
                 (Some "<bytes>"))
              (CloudflareWorker.handleRequest (Sample.runtime origin) request))
    as (r & Hr & _ & Hnone).
  - left. reflexivity.
  - vm_compute. right. left. reflexivity.
  - reflexivity.
  - cbn. lia.
  - exists r. split; [assumption|]. apply Hnone.
    intros known Hk. cbn [relayed_names In] in Hk.
    repeat (destruct Hk as [<-|Hk]; [vm_compute; discriminate|]).
    contradiction.
Defined.

(** Two requests that agree on what the handler reads build the same
    outbound request. *)
Lemma videoRequest_same rt request request' originalUrl :
  Request.method request = Request.method request' ->
  Headers_get (Request.headers request) "Accept"
  = Headers_get (Request.headers request') "Accept" ->
  Headers_get (Request.headers request) "Range"
  = Headers_get (Request.headers request') "Range" ->
  videoRequest_of rt request originalUrl = videoRequest_of rt request' originalUrl.
Proof.
  intros Hm Ha Hr. unfold videoRequest_of, videoRequest_headers.
  now rewrite Hm, Ha, Hr.
Qed.

Lemma Relay_same rt request request' originalUrl calls r :
  Request.method request = Request.method request' ->
  Headers_get (Request.headers request) "Accept"
  = Headers_get (Request.headers request') "Accept" ->
  Headers_get (Request.headers request) "Range"
  = Headers_get (Request.headers request') "Range" ->
  Relay rt request originalUrl calls r ->
  Relay rt request' originalUrl calls r.
Proof.
  intros Hm Ha Hr H.
  pose proof (videoRequest_same rt _ _ originalUrl Hm Ha Hr) as Hv.
  inversion H; subst; rewrite ?Hv in *; rewrite Hm in *.
  - now apply relay_request_rejected.
  - now apply relay_fetch_failed.
  - now apply relay_status_rejected with videoResponse.
  - now apply relay_done.
Qed.

Lemma Run_same rt policy request request' url url' calls r :
  Request.method request = Request.method request' ->
  URL_new rt (Request.url request) = Ok url ->
  URL_new rt (Request.url request') = Ok url' ->
  searchParams_get (URL.searchParams url) "vid"
  = searchParams_get (URL.searchParams url') "vid" ->
  Headers_get (Request.headers request) "Accept"
  = Headers_get (Request.headers request') "Accept" ->
  Headers_get (Request.headers request) "Range"
  = Headers_get (Request.headers request') "Range" ->
  Run rt policy request calls r ->
  Run rt policy request' calls r.
Proof.
  intros Hm Hu Hu' Hv Ha Hr H.
  assert (Hdec : forall token originalUrl,
             Decodes rt request token originalUrl ->
             Decodes rt request' token originalUrl).
  { intros token originalUrl (Hno & u & Hpu & Hg & Hne & Hat).
    split; [now rewrite <- Hm|].
    exists url'. rewrite Hu in Hpu. injection Hpu as <-.
    rewrite <- Hv. auto. }
  inversion H; subst.
  - apply run_preflight. now rewrite <- Hm.
  - congruence.
  - apply run_missing_token with url'; [now rewrite <- Hm|assumption|].
    rewrite <- Hv. congruence.
  - apply run_invalid_token with url'; [now rewrite <- Hm|assumption| |auto..].
    rewrite <- Hv. congruence.
  - apply run_invalid_url with originalUrl; auto.
  - apply run_origin_url_rejected with originalUrl allowedDomains; auto.
  - apply run_unauthorized with originalUrl allowedDomains urlObj; auto.
  - apply run_relay with originalUrl; auto.
    now apply Relay_same with request.
Qed.

(** X6.  The answer and the outbound request depend on the incoming request
    only through its method, its [vid] parameter, and its Accept and Range
    headers: two requests that agree on these get the same calls and the
    same answer, whatever their paths, other query parameters, other
    headers (cookies, authorization) and bodies.  Both variants. *)
Theorem X6_only_method_vid_accept_range_matter
    rt allowedDomains request request' url url' :
  Request.method request = Request.method request' ->
  URL_new rt (Request.url request) = Ok url ->
  URL_new rt (Request.url request') = Ok url' ->
  searchParams_get (URL.searchParams url) "vid"
  = searchParams_get (URL.searchParams url') "vid" ->
  Headers_get (Request.headers request) "Accept"
  = Headers_get (Request.headers request') "Accept" ->
  Headers_get (Request.headers request) "Range"
  = Headers_get (Request.headers request') "Range" ->
  CloudflareWorker.handleRequest rt request
  = CloudflareWorker.handleRequest rt request'
  /\ Allowlisted.handleRequest rt allowedDomains request
     = Allowlisted.handleRequest rt allowedDomains request'.
Proof.
  intros Hm Hu Hu' Hv Ha Hr. split.
  - destruct (worker_runs rt request) as (calls & r & -> & HR).
    symmetry. apply worker_run_complete.
    exact (Run_same _ _ _ _ _ _ _ _ Hm Hu Hu' Hv Ha Hr HR).
  - destruct (allowlisted_runs rt allowedDomains request)
      as (calls & r & -> & HR).
    symmetry. apply allowlisted_run_complete.
    exact (Run_same _ _ _ _ _ _ _ _ Hm Hu Hu' Hv Ha Hr HR).
Qed.

Lemma X6_only_method_vid_accept_range_witness :
  let vid := "aHR0cHM6Ly9zdG9yYWdlLmdvb2dsZWFwaXMuY29tL3YubXA0" in
  let request :=
    Request.mk ("https://proxy.example/?vid=" ++ vid) "GET"
      [("Range", "bytes=0-1023")] None in
  let request' :=
    Request.mk ("https://proxy.example/watch?x=1&vid=" ++ vid) "GET"
      [("Cookie", "session=1"); ("range", "bytes=0-1023")] (Some "ignored") in
  Allowlisted.handleRequest (Sample.runtime Sample.origin_partial)
    Allowlisted.allowedDomains request
  = Allowlisted.handleRequest (Sample.runtime Sample.origin_partial)
      Allowlisted.allowedDomains request'.
Proof.
  intros vid request request'.
  refine (proj2 (X6_only_method_vid_accept_range_matter
                   (Sample.runtime Sample.origin_partial)
                   Allowlisted.allowedDomains request request'
                   (URL.mk "proxy.example" [("vid", vid)])
                   (URL.mk "proxy.example" [("x", "1"); ("vid", vid)])
                   _ _ _ _ _ _)); reflexivity.
Defined.

Lemma Relay_answer rt request originalUrl calls r :
  Relay rt request originalUrl calls r ->
  (exists e, r = server_error_response e)
  \/ (exists videoResponse, r = relayed videoResponse).
Proof.
  intros H. inversion H; subst; eauto.
Qed.

(** X7.  An answer that carries exactly the JSON error header and a status
    other than 500 (the 400 and 403 answers) was produced without
    contacting the origin: the handler made no [fetch].  Both variants. *)
Theorem X7_validation_errors_never_reach_origin
    rt allowedDomains request r (m : M Response.t) :
  m = CloudflareWorker.handleRequest rt request
  \/ m = Allowlisted.handleRequest rt allowedDomains request ->
  result m = Ok r ->
  Response.headers r = [("Content-Type", "application/json")] ->
  Response.status r <> 500%Z ->
  forall videoRequest, ~ In (CallFetch videoRequest) (trace m).
Proof.
  intros Hm Hres Hh Hst videoRequest Hin.
  destruct (either_runs _ _ _ _ Hm) as (policy & calls & r' & -> & HR).
  cbn [result snd] in Hres. injection Hres as ->.
  cbn [trace fst] in Hin.
  destruct (Run_fetch _ _ _ _ _ _ HR Hin)
    as (token & originalUrl & _ & _ & _ & Hrelay & _ & _).
  apply Relay_answer in Hrelay as [(e & ->)|(o & ->)].
  - apply Hst. reflexivity.
  - cbn [relayed Response.headers] in Hh.
    rewrite responseHeaders_shape in Hh. discriminate.
Qed.

Lemma X7_validation_errors_witness :
  let originalUrl := "https://example.com/v.mp4" in
  let request := Sample.request_for "GET" (encode_token originalUrl) [] in
  result (Allowlisted.handleRequest (Sample.runtime Sample.origin_plain)
            Allowlisted.allowedDomains request) = Ok unauthorized
  /\ ~ In (CallFetch (videoRequest_of (Sample.runtime Sample.origin_plain) request originalUrl))
          (trace (Allowlisted.handleRequest
                    (Sample.runtime Sample.origin_plain)
                    Allowlisted.allowedDomains request)).
Proof.
  intros originalUrl request. split; [reflexivity|].
  apply (X7_validation_errors_never_reach_origin
           (Sample.runtime Sample.origin_plain)
           Allowlisted.allowedDomains request unauthorized).
  - right. reflexivity.
  - reflexivity.
  - reflexivity.
  - discriminate.
Defined.

(** X8.  In one run the handler decodes at most once and fetches at most
    once, and only in that order: its calls are none, or one [atob], or one
    [atob] followed by one [fetch] of the request built from the decoded
    string (its URL is the platform's serialisation of that string), which
    then has the http:// or https:// prefix.  Both variants. *)
Theorem X8_at_most_one_decode_then_one_fetch rt allowedDomains request :
  let shape (m : M Response.t) :=
    trace m = []
    \/ (exists token, trace m = [CallAtob token])
    \/ (exists token originalUrl,
          atob token = Some originalUrl
          /\ (startsWith originalUrl "http://" = true
              \/ startsWith originalUrl "https://" = true)
          /\ trace m
             = [CallAtob token;
                CallFetch
                  (Request.mk (Request_href rt originalUrl)
                     (Request.method request)
                     (videoRequest_headers request) None)]) in
  shape (CloudflareWorker.handleRequest rt request)
  /\ shape (Allowlisted.handleRequest rt allowedDomains request).
Proof.
  intros shape.
  assert (H : forall policy calls r (m : M Response.t),
             m = (calls, Ok r) -> Run rt policy request calls r -> shape m).
  { intros policy calls r m -> HR. unfold shape. cbn [trace fst].
    apply Run_calls in HR
      as [->|[(token & ->)|(token & originalUrl & Ha & Hs & ->)]]; eauto.
    right; right. exists token, originalUrl. split; [assumption|].
    split; [|reflexivity].
    unfold bad_scheme in Hs. apply andb_false_iff in Hs.
    destruct Hs as [Hs|Hs]; apply negb_false_iff in Hs; auto. }
  split.
  - destruct (worker_runs rt request) as (calls & r & Heq & HR). eauto.
  - destruct (allowlisted_runs rt allowedDomains request)
      as (calls & r & Heq & HR). eauto.
Qed.

Lemma Run_under_allowlist rt allowedDomains request calls r :
  (forall token originalUrl,
      Decodes rt request token originalUrl ->
      bad_scheme originalUrl = false ->
      Passes_allowlist rt (Some allowedDomains) originalUrl) ->
  Run rt None request calls r ->
  Run rt (Some allowedDomains) request calls r.
Proof.
  intros Hpass H. inversion H; subst.
  - now apply run_preflight.
  - now apply run_own_url_rejected.
  - now apply run_missing_token with url.
  - now apply run_invalid_token with url.
  - now apply run_invalid_url with originalUrl.
  - discriminate.
  - discriminate.
  - apply run_relay with originalUrl; auto.
    now apply Hpass with token.
Qed.

(** X9.  The two variants differ only in the allowlist stage: on a request
    whose decoded URL (if it gets that far) parses and matches an entry of
    the list, or when the list is empty and the URL parses, the allowlisted
    variant makes the same calls and gives the same answer as
    [src/cloudflare_worder.js]. *)
Theorem X9_variants_agree_past_the_allowlist rt allowedDomains request :
  (forall token originalUrl,
      Decodes rt request token originalUrl ->
      bad_scheme originalUrl = false ->
      exists urlObj,
        URL_new rt originalUrl = Ok urlObj
        /\ (existsb (fun domain => includes (URL.hostname urlObj) domain)
                    allowedDomains = true
            \/ allowedDomains = [])) ->
  Allowlisted.handleRequest rt allowedDomains request
  = CloudflareWorker.handleRequest rt request.
Proof.
  intros Hpass.
  destruct (worker_runs rt request) as (calls & r & -> & HR).
  apply allowlisted_run_complete.
  apply Run_under_allowlist; assumption.
Qed.

Lemma X9_variants_agree_witness :
  let request :=
    Sample.request_for "GET"
      "aHR0cHM6Ly9zdG9yYWdlLmdvb2dsZWFwaXMuY29tL3YubXA0"
      [("Range", "bytes=0-1023")] in
  Allowlisted.handleRequest (Sample.runtime Sample.origin_partial)
    Allowlisted.allowedDomains request
  = CloudflareWorker.handleRequest (Sample.runtime Sample.origin_partial)
      request.
Proof.
  intros request.
  apply (X9_variants_agree_past_the_allowlist
           (Sample.runtime Sample.origin_partial)
           Allowlisted.allowedDomains request).
  intros token originalUrl (_ & url & Hu & Hv & _ & Ha) _.
  cbn in Hu. injection Hu as <-.
  cbn in Hv. injection Hv as <-.
  vm_compute in Ha. injection Ha as <-.
  exists (URL.mk "storage.googleapis.com" []).
  split; [reflexivity|left; reflexivity].
Defined.

(** Two lists that match the same hostnames and are empty together give
    the same runs. *)
Lemma Run_same_policy rt (l l' : list string) request calls r :
  (l = [] <-> l' = []) ->
  (forall hostname,
      existsb (fun domain => includes hostname domain) l
      = existsb (fun domain => includes hostname domain) l') ->
  Run rt (Some l) request calls r ->
  Run rt (Some l') request calls r.
Proof.
  intros Hnil Hsame H. inversion H; subst.
  - now apply run_preflight.
  - now apply run_own_url_rejected.
  - now apply run_missing_token with url.
  - now apply run_invalid_token with url.
  - now apply run_invalid_url with originalUrl.
  - now apply run_origin_url_rejected with originalUrl l'.
  - match goal with Hp : Some _ = Some _ |- _ => injection Hp as <- end.
    apply run_unauthorized with originalUrl l' urlObj; auto.
    + now rewrite <- Hsame.
    + intros Hl'. apply Hnil in Hl'. contradiction.
  - apply run_relay with originalUrl; auto.
    match goal with Hp : Passes_allowlist _ _ _ |- _ =>
      destruct Hp as (urlObj & Hu & Hor)
    end.
    exists urlObj. split; [assumption|].
    destruct Hor as [Hx|Hx]; [left; now rewrite <- Hsame|right; now apply Hnil].
Qed.

Lemma allowlisted_same_policy rt (l l' : list string) request :
  (l = [] <-> l' = []) ->
  (forall hostname,
      existsb (fun domain => includes hostname domain) l
      = existsb (fun domain => includes hostname domain) l') ->
  Allowlisted.handleRequest rt l request
  = Allowlisted.handleRequest rt l' request.
Proof.
  intros Hnil Hsame.
  destruct (allowlisted_runs rt l request) as (calls & r & -> & HR).
  symmetry. apply allowlisted_run_complete.
  now apply Run_same_policy with l.
Qed.

Lemma existsb_same_elements {A} (f : A -> bool) (l l' : list A) :
  (forall x, In x l <-> In x l') -> existsb f l = existsb f l'.
Proof.
  intros H.
  destruct (existsb f l) eqn:E; symmetry.
  - apply existsb_exists in E as (x & Hin & Hf).
    apply existsb_exists. exists x. split; [now apply H|assumption].
  - destruct (existsb f l') eqn:E'; [|reflexivity].
    apply existsb_exists in E' as (x & Hin & Hf).
    assert (Ht : existsb f l = true)
      by (apply existsb_exists; exists x; split; [now apply H|assumption]).
    congruence.
Qed.

(** X10.  Only the set of allowlist entries matters: two lists with the
    same entries, in any order and with any repetitions, give the same calls
    and the same answer on every request. *)
Theorem X10_allowlist_order_and_repetition_do_not_matter
    rt (allowedDomains allowedDomains' : list string) request :
  (forall domain, In domain allowedDomains <-> In domain allowedDomains') ->
  Allowlisted.handleRequest rt allowedDomains request
  = Allowlisted.handleRequest rt allowedDomains' request.
Proof.
  intros H. apply allowlisted_same_policy.
  - split; intros ->.
    + destruct allowedDomains' as [|d ds]; [reflexivity|].
      exfalso. apply (proj2 (H d)). now left.
    + destruct allowedDomains as [|d ds]; [reflexivity|].
      exfalso. apply (proj1 (H d)). now left.
  - intros hostname. now apply existsb_same_elements.
Qed.

Lemma X10_allowlist_order_witness :
  let request :=
    Sample.request_for "GET"
      "aHR0cHM6Ly9zdG9yYWdlLmdvb2dsZWFwaXMuY29tL3YubXA0" [] in
  Allowlisted.handleRequest (Sample.runtime Sample.origin_plain)
    ["commondatastorage.googleapis.com"; "storage.googleapis.com"] request
  = Allowlisted.handleRequest (Sample.runtime Sample.origin_plain)
      ["storage.googleapis.com"; "commondatastorage.googleapis.com";
       "storage.googleapis.com"] request.
Proof.
  intros request.
  apply (X10_allowlist_order_and_repetition_do_not_matter
           (Sample.runtime Sample.origin_plain)).
  intros domain. cbn [In]. tauto.
Defined.

Lemma Substring_trans (a b c : string) :
  Substring a b -> Substring b c -> Substring a c.
Proof.
  intros (p1 & q1 & ->) (p2 & q2 & ->).
  exists (p2 ++ p1), (q1 ++ q2).
  now rewrite !string_app_assoc.
Qed.

(** X11.  The list the second copy ships is equivalent to its second entry
    alone: every hostname that contains commondatastorage.googleapis.com
    contains storage.googleapis.com, so the handler with the shipped list
    behaves on every request as with the one-entry list
    ["storage.googleapis.com"]. *)
Theorem X11_shipped_allowlist_is_one_substring_test rt request :
  Allowlisted.handleRequest rt Allowlisted.allowedDomains request
  = Allowlisted.handleRequest rt ["storage.googleapis.com"] request.
Proof.
  apply allowlisted_same_policy.
  - split; discriminate.
  - intros hostname. unfold Allowlisted.allowedDomains. cbn [existsb].
    rewrite !orb_false_r.
    destruct (includes hostname "commondatastorage.googleapis.com") eqn:E;
      [|reflexivity].
    cbn [orb]. symmetry.
    apply includes_Substring. apply includes_Substring in E.
    apply Substring_trans with "commondatastorage.googleapis.com";
      [|assumption].
    apply includes_Substring. reflexivity.
Qed.

(** X12.  A [vid] parameter that is present but empty ([?vid=]) is treated
    like an absent one: the answer is 400 {"error":"Missing video ID"} and
    nothing is decoded or fetched.  Both variants. *)
Theorem X12_empty_vid_is_missing rt allowedDomains request url :
  Request.method request <> "OPTIONS" ->
  URL_new rt (Request.url request) = Ok url ->
  searchParams_get (URL.searchParams url) "vid" = Some "" ->
  let outcome : M Response.t :=
    ([], Ok (Response.mk 400 [("Content-Type", "application/json")]
               (Some (jsontext "{'error':'Missing video ID'}")))) in
  CloudflareWorker.handleRequest rt request = outcome
  /\ Allowlisted.handleRequest rt allowedDomains request = outcome.
Proof.
  intros Hm Hu Hv outcome.
  assert (H : forall policy, Run rt policy request [] missing_token).
  { intros policy. apply run_missing_token with url; auto.
    now rewrite Hv. }
  split.
  - now apply worker_run_complete.
  - now apply allowlisted_run_complete.
Qed.

Lemma X12_empty_vid_witness :
  CloudflareWorker.handleRequest (Sample.runtime Sample.origin_plain)
    (Request.mk "https://proxy.example/?vid=" "GET" [] None)
  = ([], Ok missing_token).
Proof.
  refine (proj1 (X12_empty_vid_is_missing
                   (Sample.runtime Sample.origin_plain) []
                   (Request.mk "https://proxy.example/?vid=" "GET" [] None)
                   (URL.mk "proxy.example" [("vid", "")]) _ _ _)).
  - discriminate.
  - reflexivity.
  - reflexivity.
Defined.

Lemma whitespace_filtered_out (s : string) :
  all_whitespace s = true ->
  filter (fun c => negb (is_ascii_whitespace c)) (list_ascii_of_string s) = [].
Proof.
  induction s as [|c s IH]; cbn [all_whitespace list_ascii_of_string filter];
    [reflexivity|].
  rewrite andb_true_iff. intros [Hc Hs]. rewrite Hc. cbn [negb]. auto.
Qed.

Lemma atob_whitespace (s : string) :
  all_whitespace s = true -> atob s = Some "".
Proof.
  intros H. unfold atob. rewrite (whitespace_filtered_out s H). reflexivity.
Qed.

(** X13.  A token made only of ASCII whitespace (what [?vid=+] or
    [?vid=%20] carries) is not empty, so it passes the missing-token test;
    [atob] decodes it to the empty string, and the answer is 400
    {"error":"Invalid URL"}, not a token error.  Both variants. *)
Theorem X13_blank_token_is_invalid_url rt allowedDomains request url token :
  Request.method request <> "OPTIONS" ->
  URL_new rt (Request.url request) = Ok url ->
  searchParams_get (URL.searchParams url) "vid" = Some token ->
  token <> "" ->
  all_whitespace token = true ->
  let outcome : M Response.t :=
    ([CallAtob token],
     Ok (Response.mk 400 [("Content-Type", "application/json")]
           (Some (jsontext "{'error':'Invalid URL'}")))) in
  CloudflareWorker.handleRequest rt request = outcome
  /\ Allowlisted.handleRequest rt allowedDomains request = outcome.
Proof.
  intros Hm Hu Hv Hne Hws outcome.
  assert (Hd : Decodes rt request token "").
  { split; [assumption|]. exists url. repeat split; auto.
    now apply atob_whitespace. }
  apply (bad_scheme_is_400 rt allowedDomains request token "" Hd).
  reflexivity.
Qed.

Lemma X13_blank_token_witness :
  CloudflareWorker.handleRequest (Sample.runtime Sample.origin_plain)
    (Request.mk "https://proxy.example/?vid=+" "GET" [] None)
  = ([CallAtob " "], Ok invalid_url).
Proof.
  refine (proj1 (X13_blank_token_is_invalid_url
                   (Sample.runtime Sample.origin_plain) []
                   (Request.mk "https://proxy.example/?vid=+" "GET" [] None)
                   (URL.mk "proxy.example" [("vid", " ")]) " " _ _ _ _ _)).
  - discriminate.
  - reflexivity.
  - reflexivity.
  - discriminate.
  - reflexivity.
Defined.

Lemma includes_empty (s : string) : includes s "" = true.
Proof.
  destruct s; reflexivity.
Qed.

(** X14.  An empty string among the allowlist entries disables the
    allowlist: every hostname contains it, so the handler never answers 403
    {"error":"Unauthorized domain"}. *)
Theorem X14_empty_entry_disables_allowlist rt allowedDomains request :
  In "" allowedDomains ->
  result (Allowlisted.handleRequest rt allowedDomains request)
  <> Ok (Response.mk 403 [("Content-Type", "application/json")]
           (Some (jsontext "{'error':'Unauthorized domain'}"))).
Proof.
  intros Hin.
  change (Response.mk 403 [("Content-Type", "application/json")]
            (Some (jsontext "{'error':'Unauthorized domain'}")))
    with unauthorized.
  destruct (allowlisted_runs rt allowedDomains request)
    as (calls & r & -> & HR).
  cbn [result snd]. intros H. injection H as ->.
  inversion HR; subst; try discriminate.
  - match goal with Hp : Some _ = Some _ |- _ => injection Hp as <- end.
    match goal with
    | Hx : existsb _ _ = false |- _ =>
        assert (Ht : existsb
                       (fun domain => includes (URL.hostname urlObj) domain)
                       allowedDomains = true)
          by (apply existsb_exists; exists ""; split;
              [assumption|apply includes_empty]);
        congruence
    end.
  - match goal with HR' : Relay _ _ _ _ _ |- _ =>
      now apply Relay_not_unauthorized in HR'
    end.
Qed.

Lemma X14_empty_entry_witness :
  let request :=
    Sample.request_for "GET" (encode_token "https://example.com/v.mp4") [] in
  result (Allowlisted.handleRequest (Sample.runtime Sample.origin_plain)
            ["storage.googleapis.com"; ""] request)
  <> Ok unauthorized.
Proof.
  intros request.
  apply (X14_empty_entry_disables_allowlist
           (Sample.runtime Sample.origin_plain)
           ["storage.googleapis.com"; ""] request).
  right. left. reflexivity.
Defined.

Lemma base64_encode_not_empty (bs : string) :
  bs <> "" -> base64_encode bs <> "".
Proof.
  intros Hne H.
  pose proof (atob_base64_encode bs) as Ha.
  rewrite H, atob_empty in Ha. injection Ha as <-. now apply Hne.
Qed.

(** X15.  End to end: when [vid] is the standard Base64 text of a string
    with the http:// or https:// prefix (any code units below 256) and the
    [Request] constructor accepts it, the handler decodes once and fetches
    once: the request whose URL is the platform's serialisation of that
    string, with the incoming method and the four outbound headers.  The
    allowlisted variant does the same when the URL passes its allowlist
    stage. *)
Theorem X15_base64_token_fetches_its_url
    rt allowedDomains request url originalUrl :
  Request.method request <> "OPTIONS" ->
  URL_new rt (Request.url request) = Ok url ->
  searchParams_get (URL.searchParams url) "vid"
  = Some (base64_encode originalUrl) ->
  bad_scheme originalUrl = false ->
  Request_check rt originalUrl (Request.method request) = None ->
  let calls :=
    [CallAtob (base64_encode originalUrl);
     CallFetch (Request.mk (Request_href rt originalUrl)
                  (Request.method request)
                  (videoRequest_headers request) None)] in
  trace (CloudflareWorker.handleRequest rt request) = calls
  /\ (Passes_allowlist rt (Some allowedDomains) originalUrl ->
      trace (Allowlisted.handleRequest rt allowedDomains request) = calls).
Proof.
  intros Hm Hu Hv Hs Hc calls.
  assert (Hne : originalUrl <> "").
  { intros ->. discriminate Hs. }
  assert (Hd : Decodes rt request (base64_encode originalUrl) originalUrl).
  { split; [assumption|]. exists url. repeat split; auto.
    - now apply base64_encode_not_empty.
    - apply atob_base64_encode. }
  destruct (Relay_total rt request originalUrl) as (cs & r & HR).
  pose proof (Relay_fetches _ _ _ _ _ Hc HR) as ->.
  split.
  - assert (Hrun : Run rt None request calls r).
    { apply run_relay with originalUrl; auto. exact I. }
    now rewrite (worker_run_complete _ _ _ _ Hrun).
  - intros Hp.
    assert (Hrun : Run rt (Some allowedDomains) request calls r).
    { now apply run_relay with originalUrl. }
    now rewrite (allowlisted_run_complete _ _ _ _ _ Hrun).
Qed.

(** A URL with no path and one with a character outside ASCII: what is
    fetched is the serialised form. *)
Lemma X15_base64_token_witness :
  let bare := "https://example.com" in
  let accented :=
    "https://example.com/caf" ++ String (ascii_of_nat 233) ".mp4" in
  let request_for originalUrl :=
    Sample.request_for "HEAD" (base64_encode originalUrl) [] in
  let fetched originalUrl href :=
    trace (CloudflareWorker.handleRequest
             (Sample.runtime Sample.origin_plain) (request_for originalUrl))
    = [CallAtob (base64_encode originalUrl);
       CallFetch (Request.mk href "HEAD"
                    (videoRequest_headers (request_for originalUrl)) None)] in
  fetched bare "https://example.com/"
  /\ fetched accented "https://example.com/caf%C3%A9.mp4".
Proof.
  intros bare accented request_for fetched. split.
  - refine (proj1 (X15_base64_token_fetches_its_url
                     (Sample.runtime Sample.origin_plain) []
                     (request_for bare)
                     (URL.mk "proxy.example" [("vid", base64_encode bare)])
                     bare _ _ _ _ _)).
    + discriminate.
    + reflexivity.
    + reflexivity.
    + reflexivity.
    + reflexivity.
  - refine (proj1 (X15_base64_token_fetches_its_url
                     (Sample.runtime Sample.origin_plain) []
                     (request_for accented)
                     (URL.mk "proxy.example"
                        [("vid", base64_encode accented)])
                     accented _ _ _ _ _)).
    + discriminate.
    + reflexivity.
    + reflexivity.
    + reflexivity.
    + reflexivity.
Defined.

(** X16.  When the origin answers with a status outside 200..599, the
    [Response] constructor throws while the answer is being built, after
    the one fetch; the handler answers 500 with the constructor's message
    and the origin's status, headers and body are dropped.  Both variants
    (the allowlisted one when the URL passes its allowlist stage). *)
Theorem X16_unconstructible_status_answers_500
    rt allowedDomains request token originalUrl videoResponse :
  Decodes rt request token originalUrl ->
  bad_scheme originalUrl = false ->
  Request_check rt originalUrl (Request.method request) = None ->
  fetch rt (videoRequest_of rt request originalUrl) = Ok videoResponse ->
  (Response.status videoResponse < 200
   \/ 599 < Response.status videoResponse)%Z ->
  let outcome : M Response.t :=
    ([CallAtob token; CallFetch (videoRequest_of rt request originalUrl)],
     Ok (Response.mk 500 [("Content-Type", "application/json")]
           (Some (JSON_stringify
                    [("error", "Server error");
                     ("message", message status_RangeError)])))) in
  CloudflareWorker.handleRequest rt request = outcome
  /\ (Passes_allowlist rt (Some allowedDomains) originalUrl ->
      Allowlisted.handleRequest rt allowedDomains request = outcome).
Proof.
  intros Hd Hs Hc Hf Hst outcome.
  assert (HR : Relay rt request originalUrl
                 [CallFetch (videoRequest_of rt request originalUrl)]
                 (server_error_response status_RangeError)).
  { apply relay_status_rejected with videoResponse; auto.
    unfold constructible. lia. }
  split.
  - apply worker_run_complete.
    apply run_relay with originalUrl; auto. exact I.
  - intros Hp. apply allowlisted_run_complete.
    now apply run_relay with originalUrl.
Qed.

Lemma X16_unconstructible_status_witness :
  let originalUrl := "https://example.com/v.mp4" in
  let request := Sample.request_for "GET" (encode_token originalUrl) [] in
  exists r,
    CloudflareWorker.handleRequest (Sample.runtime Sample.origin_999) request
    = ([CallAtob (encode_token originalUrl);
        CallFetch (videoRequest_of (Sample.runtime Sample.origin_999) request originalUrl)], Ok r)
    /\ Response.status r = 500%Z.
Proof.
  intros originalUrl request.
  eexists. split.
  - refine (proj1 (X16_unconstructible_status_answers_500
                     (Sample.runtime Sample.origin_999) [] request
                     (encode_token originalUrl) originalUrl
                     (Response.mk 999 [("Content-Type", "text/html")]
                        (Some "denied"))
                     _ _ _ _ _)).
    + split; [discriminate|].
      exists (URL.mk "proxy.example" [("vid", encode_token originalUrl)]).
      repeat split; try reflexivity. discriminate.
    + reflexivity.
    + reflexivity.
    + reflexivity.
    + right. cbn. lia.
  - reflexivity.
Defined.

(** X17.  Adding entries to a non-empty allowlist never turns an admitted
    request into a refused one: if the handler answers 403
    {"error":"Unauthorized domain"} under the longer list, it does under the
    shorter one.  (From the empty list this fails: the empty list admits
    everything.) *)
Theorem X17_longer_allowlist_admits_more
    rt (allowedDomains more : list string) request :
  allowedDomains <> [] ->
  result (Allowlisted.handleRequest rt (allowedDomains ++ more)%list request)
  = Ok unauthorized ->
  result (Allowlisted.handleRequest rt allowedDomains request)
  = Ok unauthorized.
Proof.
  intros Hne H.
  destruct (allowlisted_runs rt (allowedDomains ++ more)%list request)
    as (calls & r & Heq & HR).
  rewrite Heq in H. cbn [result snd] in H. injection H as ->.
  inversion HR; subst; try discriminate.
  - match goal with Hp : Some _ = Some _ |- _ => injection Hp as <- end.
    match goal with
    | Hx : existsb _ (_ ++ _)%list = false |- _ =>
        rewrite existsb_app in Hx; apply orb_false_iff in Hx as [Hx _]
    end.
    assert (Hrun : Run rt (Some allowedDomains) request
                     [CallAtob token] unauthorized)
      by now apply run_unauthorized with originalUrl allowedDomains urlObj.
    now rewrite (allowlisted_run_complete _ _ _ _ _ Hrun).
  - match goal with HR' : Relay _ _ _ _ _ |- _ =>
      now apply Relay_not_unauthorized in HR'
    end.
Qed.

Lemma X17_longer_allowlist_witness :
  let request :=
    Sample.request_for "GET" (encode_token "https://example.com/v.mp4") [] in
  result (Allowlisted.handleRequest (Sample.runtime Sample.origin_plain)
            ["storage.googleapis.com"] request)
  = Ok unauthorized.
Proof.
  intros request.
  apply (X17_longer_allowlist_admits_more
           (Sample.runtime Sample.origin_plain)
           ["storage.googleapis.com"] ["cdn.example.net"] request).
  - discriminate.
  - reflexivity.
Defined.
